(** * Explosives logbook (app.py)

    A shallow embedding of the Streamlit script [app.py]: the two record
    lists kept in [st.session_state], the mine registry, the CSV files the
    script rewrites, the stock balance and the grouped reports.

    Conventions of the embedding.
    - Python [int] is [Z]. A quantity column of a frame is an int64
      column: its sums wrap around at 2^63 ([wrap64]). A series that had
      to be padded with NaN is a float64 series: its integers are rounded
      to 53 significant bits, ties to even ([float64_of_Z]); such a value
      is written here as the integer it equals. The forms deliver
      quantities between 0 and 2^53 - 1, which an int64 column holds as
      they are.
    - A dict of [st.session_state['data']] / [st.session_state['stock']] is
      built by the dict literal of the submit handlers and therefore has
      exactly the keys of that literal: it is a record here, and
      [issuance_dict] / [stock_dict] give back the ordered dict that is
      handed to [pd.DataFrame].
    - A pandas [Series] indexed by strings is a [gmap string Z]; a
      [DataFrame] that is written to disk is its header and its rows; the
      result of [groupby(...).sum().reset_index()] is the list of its rows
      in index order.
    - The file system is a map from path to the table that stands there,
      together with a flag saying whether writes succeed and, for the case
      that they do not, what a failed write leaves behind. Both files lie
      in the directory of the script itself, so [mkdir] finds it there. *)

From stdpp Require Import gmap strings list fin_maps sorting.
From Stdlib Require Import ZArith Lia.

Local Open Scope Z_scope.

(** ** Data model *)

(** [datetime.date] *)
Record dtdate := mkdate { year : Z; month : Z; day : Z }.

(** the dict appended by [entry_form] (lines 161-170) *)
Record IssuanceRecord := mkIssuance {
  Date : dtdate;
  Mine : string;
  Issued_By : string;
  Received_By : string;
  Remarks : string;
  Wabox_Cartridges : Z;
  Detonators : Z;
  Safety_Fuse_m : Z
}.

(** the dict appended by [add_stock_form] (lines 220-225) *)
Record StockRecord := mkStock {
  Serial_No : string;
  Receiving_Date : dtdate;
  Explosive_Type : string;
  Quantity : Z
}.

Global Instance dtdate_eq_dec : EqDecision dtdate.
Proof. solve_decision. Defined.
Global Instance IssuanceRecord_eq_dec : EqDecision IssuanceRecord.
Proof. solve_decision. Defined.
Global Instance StockRecord_eq_dec : EqDecision StockRecord.
Proof. solve_decision. Defined.

(** The three quantity columns, and their column names:
    [explosive_types = ["Wabox Cartridges", "Detonators", "Safety Fuse (m)"]]
    (line 90). *)
Inductive explosive := Wabox | Detonator | Fuse.

Global Instance explosive_eq_dec : EqDecision explosive.
Proof. solve_decision. Defined.

Definition label (t : explosive) : string :=
  match t with
  | Wabox => "Wabox Cartridges"
  | Detonator => "Detonators"
  | Fuse => "Safety Fuse (m)"
  end.

Definition all_explosives : list explosive := [Wabox; Detonator; Fuse].

Definition explosive_types : list string := label <$> all_explosives.

(** [df[label t]] on the issuance frame *)
Definition issued_column (t : explosive) (e : IssuanceRecord) : Z :=
  match t with
  | Wabox => Wabox_Cartridges e
  | Detonator => Detonators e
  | Fuse => Safety_Fuse_m e
  end.

(** ** The pandas operations the script uses *)

Module Pandas.

(** int64 arithmetic: the result of an operation, brought back into
    [-2^63, 2^63) *)
Definition wrap64 (z : Z) : Z := (z + 2 ^ 63) mod 2 ^ 64 - 2 ^ 63.

(** The float64 nearest to an integer (ties to even), as the integer it
    equals. Integers of magnitude below 2^53 are kept; beyond, the last
    [Z.log2 |z| - 52] bits are rounded away. (Overflow to infinity, far
    above 2^64, is out of reach of int64 operands.) *)
Definition float64_of_Z (z : Z) : Z :=
  let a := Z.abs z in
  if a <? 2 ^ 53 then z
  else
    let ulp := 2 ^ (Z.log2 a - 52) in
    let q := a / ulp in
    let r := a mod ulp in
    let q' := if 2 * r <? ulp then q
              else if ulp <? 2 * r then q + 1
              else if Z.even q then q else q + 1 in
    Z.sgn z * (q' * ulp).

(** [Series.sum()] of an int64 column *)
Definition column_sum {A} (f : A → Z) (df : list A) : Z :=
  foldr (λ r acc, wrap64 (f r + acc)) 0 df.

(** [df.groupby(key)[val].sum()] on an int64 column: one entry per key
    that occurs *)
Definition groupby_sum {A} (key : A → string) (val : A → Z) (df : list A)
    : gmap string Z :=
  foldr (λ r acc, <[key r := wrap64 (val r + default 0 (acc !! key r))]> acc) ∅ df.

(** [pd.Series(v, index=idx)] *)
Definition constant_series (v : Z) (idx : list string) : gmap string Z :=
  list_to_map ((λ k, (k, v)) <$> idx).

(** [a.subtract(b, fill_value=fill)] for two int64 series. The index of
    the result is the union of the two indexes. When both carry the same
    labels, no value is missing after alignment and the difference is
    taken in int64. Otherwise the side that lacks a label is padded with
    NaN, which makes it float64; the NaN is then replaced by [fill] and
    the difference is taken in float64, the int64 operand being converted
    on the way. *)
Definition subtract (fill : Z) (a b : gmap string Z) : gmap string Z :=
  if bool_decide (dom a = dom b) then
    merge (λ x y,
             match x, y with
             | None, None => None
             | _, _ => Some (wrap64 (default fill x - default fill y))
             end) a b
  else
    merge (λ x y,
             match x, y with
             | None, None => None
             | _, _ => Some (float64_of_Z (float64_of_Z (default fill x)
                                           - float64_of_Z (default fill y)))
             end) a b.

(** Cells of a frame that goes to disk. *)
Inductive cell := Str (s : string) | Int (z : Z) | Day (d : dtdate) | NaN.

(** A Python dict with string keys, in insertion order. *)
Definition dict := list (string * cell).

Fixpoint dict_get (k : string) (d : dict) : option cell :=
  match d with
  | [] => None
  | (k', v) :: d => if decide (k = k') then Some v else dict_get k d
  end.

Record DataFrame := mkFrame { columns : list string; rows : list (list cell) }.

(** Columns of [pd.DataFrame(list_of_dicts)]: the keys, in order of
    first appearance. *)
Definition frame_columns (data : list dict) : list string :=
  foldl (λ cols d, cols ++ list_difference (d.*1) cols) [] data.

(** [pd.DataFrame(data)]; a key a row lacks is NaN there. *)
Definition from_records (data : list dict) : DataFrame :=
  let cols := frame_columns data in
  {| columns := cols;
     rows := (λ d, (λ c, default NaN (dict_get c d)) <$> cols) <$> data |}.

(** [df.empty]: some axis has length 0 *)
Definition empty (df : DataFrame) : bool :=
  bool_decide (columns df = []) || bool_decide (rows df = []).

(** [df[cols]]: [None] is the KeyError for a column the frame lacks *)
Definition getitem (cols : list string) (df : DataFrame) : option DataFrame :=
  if decide (cols ⊆ columns df) then
    Some {| columns := cols;
            rows := (λ row, (λ c, default NaN (dict_get c (zip (columns df) row)))
                              <$> cols) <$> rows df |}
  else None.

End Pandas.
Export Pandas.

(** ** Session state and disk *)

Inductive message :=
  | AddedMine (new_mine : string)          (* st.success(f"Added mine: {new_mine}") *)
  | MineAlreadyExists                      (* st.warning("Mine already exists.") *)
  | RenamedMine (mine new_name : string)   (* st.success(f"Renamed {mine} to {new_name}") *)
  | EntryAdded (mine : string) (d : dtdate) (* st.success(f"Entry added for {mine} on {date}.") *)
  | AddedStock (stock_type : string) (stock_qty : Z)
                                           (* st.success(f"Added stock: {stock_type} - {stock_qty}") *)
  | EnterSerialAndQuantity.                (* st.warning("Please enter serial no and quantity.") *)

Inductive level := success | warning.

Definition level_of (m : message) : level :=
  match m with
  | MineAlreadyExists | EnterSerialAndQuantity => warning
  | _ => success
  end.

Record world := mkWorld {
  data : list IssuanceRecord;        (* st.session_state['data'] *)
  stock : list StockRecord;          (* st.session_state['stock'] *)
  mines : list string;               (* st.session_state['mines'] *)
  disk : gmap string DataFrame;      (* the files under BASE_DIR *)
  disk_ok : bool;                    (* whether mkdir/to_csv succeed *)
  disk_torn : option DataFrame       (* a write that fails: [None] when it fails
                                        before the file is opened, [Some t] when
                                        it fails later and leaves [t] in the file *)
}.

Definition DATA_FILE : string := "issuance_data.csv".
Definition STOCK_FILE : string := "stock_data.csv".

Definition issuance_columns : list string :=
  ["Date"; "Mine"; "Issued By"; "Received By"; "Remarks";
   "Wabox Cartridges"; "Detonators"; "Safety Fuse (m)"].

Definition stock_columns : list string :=
  ["Serial No"; "Receiving Date"; "Explosive Type"; "Quantity"].

Definition issuance_dict (e : IssuanceRecord) : dict :=
  [("Date", Day (Date e)); ("Mine", Str (Mine e));
   ("Issued By", Str (Issued_By e)); ("Received By", Str (Received_By e));
   ("Remarks", Str (Remarks e)); ("Wabox Cartridges", Int (Wabox_Cartridges e));
   ("Detonators", Int (Detonators e)); ("Safety Fuse (m)", Int (Safety_Fuse_m e))].

Definition stock_dict (r : StockRecord) : dict :=
  [("Serial No", Str (Serial_No r)); ("Receiving Date", Day (Receiving_Date r));
   ("Explosive Type", Str (Explosive_Type r)); ("Quantity", Int (Quantity r))].

(** the session before any interaction, with nothing on disk
    (lines 36-53 and 63-64) *)
Definition initial : world :=
  {| data := []; stock := []; mines := ["Mine1"; "Mine2"; "Mine3"];
     disk := ∅; disk_ok := true; disk_torn := None |}.

Definition with_data (d : list IssuanceRecord) (w : world) : world :=
  {| data := d; stock := stock w; mines := mines w; disk := disk w; disk_ok := disk_ok w;
     disk_torn := disk_torn w |}.
Definition with_stock (s : list StockRecord) (w : world) : world :=
  {| data := data w; stock := s; mines := mines w; disk := disk w; disk_ok := disk_ok w;
     disk_torn := disk_torn w |}.
Definition with_mines (m : list string) (w : world) : world :=
  {| data := data w; stock := stock w; mines := m; disk := disk w; disk_ok := disk_ok w;
     disk_torn := disk_torn w |}.
Definition with_disk (f : gmap string DataFrame) (w : world) : world :=
  {| data := data w; stock := stock w; mines := mines w; disk := f; disk_ok := disk_ok w;
     disk_torn := disk_torn w |}.

(** [entry['Mine'] = new_name] *)
Definition set_Mine (new_name : string) (e : IssuanceRecord) : IssuanceRecord :=
  {| Date := Date e; Mine := new_name; Issued_By := Issued_By e;
     Received_By := Received_By e; Remarks := Remarks e;
     Wabox_Cartridges := Wabox_Cartridges e; Detonators := Detonators e;
     Safety_Fuse_m := Safety_Fuse_m e |}.

(** ** save_csv_data (lines 23-30) *)

(** [mkdir] and [df.to_csv(file, index=False)] inside the [try]: the file
    holds the frame when the write succeeds; a write that fails leaves the
    file alone or torn, and the failure is swallowed. *)
Definition to_csv (file : string) (df : DataFrame) (w : world) : world :=
  if disk_ok w then with_disk (<[file := df]> (disk w)) w
  else match disk_torn w with                      (* except Exception: pass *)
       | Some t => with_disk (<[file := t]> (disk w)) w
       | None => w
       end.

Definition save_csv_data (file : string) (rows : list dict) (cols : list string)
    (w : world) : world :=
  let df := from_records rows in
  match (if empty df then Some df else getitem cols df) with
  | Some df => to_csv file df w
  | None => w                                      (* except Exception: pass *)
  end.

(** ** Sidebar: add a mine (lines 65-73) *)

Definition add_mine_form (add_mine_btn : bool) (new_mine : string) (w : world)
    : world * list message :=
  if add_mine_btn && bool_decide (new_mine ≠ "") then
    if bool_decide (new_mine ∉ mines w) then
      (with_mines (mines w ++ [new_mine]) w, [AddedMine new_mine])
    else (w, [MineAlreadyExists])
  else (w, []).

(** ** Sidebar: rename mines (lines 74-85) *)

(** The inner loop (lines 81-83): every entry of [mine] gets [new_name]. *)
Definition rename_entries (mine new_name : string) (df : list IssuanceRecord)
    : list IssuanceRecord :=
  (λ entry, if decide (Mine entry = mine) then set_Mine new_name entry else entry) <$> df.

(** One turn of the outer loop, for the pair [(i, mine)] of [enumerate] and
    the text [new_name] of the widget [rename_i]. *)
Definition rename_mine (i : nat) (mine new_name : string) (w : world)
    : world * list message :=
  if bool_decide (new_name ≠ mine) && bool_decide (new_name ≠ "") then
    (with_mines (<[i := new_name]> (mines w))
       (with_data (rename_entries mine new_name (data w)) w),
     [RenamedMine mine new_name])
  else (w, []).

(** The loop over [enumerate(st.session_state['mines'])], from index [i],
    for [n] more turns. [inputs i] is what the user typed into the widget
    [rename_i]; [None] is an untouched widget, which returns its
    [value=mine]. *)
Fixpoint rename_loop (inputs : nat → option string) (n i : nat) (w : world)
    : world * list message :=
  match n with
  | O => (w, [])
  | S n =>
      match mines w !! i with
      | None => (w, [])
      | Some mine =>
          let (w1, out1) := rename_mine i mine (default mine (inputs i)) w in
          let (w2, out2) := rename_loop inputs n (S i) w1 in
          (w2, out1 ++ out2)
      end
  end.

Definition rename_mines (inputs : nat → option string) (w : world)
    : world * list message :=
  match mines w with
  | [] => (w, [])
  | _ => rename_loop inputs (length (mines w)) 0 w
  end.

(** ** Issuance entry (lines 138-172)

    [e] packs the values of the widgets of [entry_form]. *)
Definition entry_form (submitted : bool) (e : IssuanceRecord) (w : world)
    : world * list message :=
  if submitted then
    let w1 := with_data (data w ++ [e]) w in
    (save_csv_data DATA_FILE (issuance_dict <$> data w1) issuance_columns w1,
     [EntryAdded (Mine e) (Date e)])
  else (w, []).


(** ** The widgets of the entry form (lines 141-157) *)




(** ** Stock receipt (lines 213-229) *)

Definition add_stock_form (add_stock_btn : bool) (r : StockRecord) (w : world)
    : world * list message :=
  if add_stock_btn && bool_decide (0 < Quantity r) && bool_decide (Serial_No r ≠ "") then
    let w1 := with_stock (stock w ++ [r]) w in
    (save_csv_data STOCK_FILE (stock_dict <$> stock w1) stock_columns w1,
     [AddedStock (Explosive_Type r) (Quantity r)])
  else if add_stock_btn then (w, [EnterSerialAndQuantity])
  else (w, []).

(** ** get_stock_balance (lines 95-110) *)

Definition get_stock_balance (w : world) : gmap string Z :=
  let received :=
    match stock w with
    | _ :: _ => groupby_sum Explosive_Type Quantity (stock w)
    | [] => constant_series 0 explosive_types
    end in
  let issued :=
    match data w with
    | _ :: _ =>
        list_to_map ((λ t, (label t, column_sum (issued_column t) (data w)))
                       <$> all_explosives)
    | [] => constant_series 0 explosive_types
    end in
  subtract 0 received issued.

(** The two sums the balance is stated with: the quantity received of the
    type named [k], and the quantity issued of type [t]. *)
Definition received (k : string) (s : list StockRecord) : Z :=
  column_sum Quantity (filter (λ r, Explosive_Type r = k) s).

Definition issued (t : explosive) (d : list IssuanceRecord) : Z :=
  column_sum (issued_column t) d.

(** ** The sums of the specification

    Sums over the integers, without bound, as the specification means
    them; the properties say when the sums of the code agree with them. *)
Definition exact_sum {A} (f : A → Z) (l : list A) : Z :=
  foldr (λ r acc, f r + acc) 0 l.

Definition exact_received (k : string) (s : list StockRecord) : Z :=
  exact_sum Quantity (filter (λ r, Explosive_Type r = k) s).

(** ** get_reports (lines 114-133) *)

(** [Period('M')]: year and month *)
Definition period : Type := Z * Z.

(** [df['Date'].dt.to_period('M')] *)
Definition Month (e : IssuanceRecord) : period := (year (Date e), month (Date e)).

(** Order of a two-level index: first level, then second. *)
Definition lex_le {A B} (RA : relation A) (RB : relation B) : relation (A * B) :=
  λ x y, (x.1 ≠ y.1 ∧ RA x.1 y.1) ∨ (x.1 = y.1 ∧ RB x.2 y.2).

Global Instance lex_le_dec {A B} (RA : relation A) (RB : relation B)
  `{!EqDecision A} `{!RelDecision RA} `{!RelDecision RB} : RelDecision (lex_le RA RB).
Proof. intros x y. unfold lex_le. apply _. Defined.

Definition period_le : relation period := lex_le Z.le Z.le.
Definition month_mine_le : relation (period * string) := lex_le period_le String.le.
Definition mine_month_le : relation (string * period) := lex_le String.le period_le.

Global Instance period_le_dec : RelDecision period_le.
Proof. unfold period_le. apply _. Defined.
Global Instance month_mine_le_dec : RelDecision month_mine_le.
Proof. unfold month_mine_le. apply _. Defined.
Global Instance mine_month_le_dec : RelDecision mine_month_le.
Proof. unfold mine_month_le. apply _. Defined.

(** the three summed columns of a report row *)
Definition totals : Type := Z * Z * Z.

Definition quantity_sums (df : list IssuanceRecord) : totals :=
  (column_sum Wabox_Cartridges df, column_sum Detonators df, column_sum Safety_Fuse_m df).

(** [df.groupby(key)[[three columns]].sum().reset_index()]: one row per key
    that occurs, in ascending key order, with the sums of its group. *)
Definition groupby_sums {K} `{!EqDecision K} (R : relation K) `{!RelDecision R}
    (key : IssuanceRecord → K) (df : list IssuanceRecord) : list (K * totals) :=
  (λ k, (k, quantity_sums (filter (λ e, key e = k) df)))
    <$> merge_sort R (remove_dups (key <$> df)).

Record reports := mkReports {
  Summary : list (string * totals);
  Monthly : list ((period * string) * totals);
  Mine_wise : list ((string * period) * totals);
  All_Data : list (IssuanceRecord * period)
}.

Definition get_reports (w : world) : reports :=
  match data w with
  | _ :: _ =>
      let df := data w in
      {| Summary := groupby_sums String.le Mine df;
         Monthly := groupby_sums month_mine_le (λ e, (Month e, Mine e)) df;
         Mine_wise := groupby_sums mine_month_le (λ e, (Mine e, Month e)) df;
         All_Data := (λ e, (e, Month e)) <$> df |}
  | [] => {| Summary := []; Monthly := []; Mine_wise := []; All_Data := [] |}
  end.

(** A row of the Monthly report with its two key columns exchanged, as the
    Mine-wise report has them. *)
Definition mine_first (row : (period * string) * totals) : (string * period) * totals :=
  ((row.1.2, row.1.1), row.2).

(** the sums of the records of mine [m] *)
Definition mine_totals (m : string) (df : list IssuanceRecord) : totals :=
  quantity_sums (filter (λ e, Mine e = m) df).

Definition totals_add (a b : totals) : totals :=
  (a.1.1 + b.1.1, a.1.2 + b.1.2, a.2 + b.2).

(** the three sums of the specification *)
Definition exact_totals (df : list IssuanceRecord) : totals :=
  (exact_sum Wabox_Cartridges df, exact_sum Detonators df, exact_sum Safety_Fuse_m df).

(** Records with non-negative quantities whose three sums over the
    integers stay below 2^63: an int64 column adds them up without
    wrapping. *)
Definition fits_int64 (df : list IssuanceRecord) : Prop :=
  Forall (λ e, 0 ≤ Wabox_Cartridges e ∧ 0 ≤ Detonators e ∧ 0 ≤ Safety_Fuse_m e) df
  ∧ exact_sum Wabox_Cartridges df < 2 ^ 63
  ∧ exact_sum Detonators df < 2 ^ 63
  ∧ exact_sum Safety_Fuse_m df < 2 ^ 63.

(** ** Reachable registries *)

(** The two sidebar operations on the registry, as the user drives them. *)
Inductive mine_op :=
  | AddMine (new_mine : string)
  | RenameMine (i : nat) (new_name : string).

Definition run_mine_op (op : mine_op) (w : world) : world :=
  match op with
  | AddMine new_mine => (add_mine_form true new_mine w).1
  | RenameMine i new_name =>
      match mines w !! i with
      | Some mine => (rename_mine i mine new_name w).1
      | None => w
      end
  end.

Definition run_mine_ops (ops : list mine_op) (w : world) : world :=
  foldl (λ w op, run_mine_op op w) w ops.

(** ** Rows as they stand in the files *)

(** An issuance record laid out in the order of [issuance_columns]. *)
Definition issuance_row (e : IssuanceRecord) : list cell :=
  [Day (Date e); Str (Mine e); Str (Issued_By e); Str (Received_By e);
   Str (Remarks e); Int (Wabox_Cartridges e); Int (Detonators e);
   Int (Safety_Fuse_m e)].

(** A stock record laid out in the order of [stock_columns]. *)
Definition stock_row (r : StockRecord) : list cell :=
  [Str (Serial_No r); Day (Receiving_Date r); Str (Explosive_Type r);
   Int (Quantity r)].

(** The issuance file holds the whole of [data], under the fixed header. *)
Definition issuance_file_current (w : world) : Prop :=
  disk w !! DATA_FILE = Some (mkFrame issuance_columns (issuance_row <$> data w)).

(** The stock file holds the whole of [stock], under the fixed header. *)
Definition stock_file_current (w : world) : Prop :=
  disk w !! STOCK_FILE = Some (mkFrame stock_columns (stock_row <$> stock w)).

(** ** Sample inputs *)

Definition sample_entry : IssuanceRecord :=
  mkIssuance (mkdate 2024 3 5) "Mine1" "Asha" "Bilal" "" 5 2 10.

Definition sample_stock : StockRecord :=
  mkStock "S12345" (mkdate 2024 3 1) "Detonators" 50.

(** the largest integer the number widgets deliver *)
Definition widget_max : Z := 2 ^ 53 - 1.

(** stock 2 and issuance 5 of detonators *)
Definition over_issued : world :=
  with_data [mkIssuance (mkdate 2024 3 5) "Mine1" "Asha" "Bilal" "" 0 5 0]
    (with_stock [mkStock "S1" (mkdate 2024 3 1) "Detonators" 2] initial).


(** receipts of detonators of 2^53 - 1 and of 1, nothing issued *)
Definition full_and_one : world :=
  with_stock [mkStock "S1" (mkdate 2024 3 1) "Detonators" widget_max;
              mkStock "S2" (mkdate 2024 3 1) "Detonators" 1] initial.

(** an entry of 2^53 - 1 cartridges *)
Definition heavy_entry (mine : string) : IssuanceRecord :=
  mkIssuance (mkdate 2024 3 5) mine "Asha" "Bilal" "" widget_max 0 0.

(** the session after [sample_entry] was submitted on a fresh start *)
Definition logged : world := (entry_form true sample_entry initial).1.

(** ... and after the widget [rename_0] was then changed to "MineX" *)
Definition logged_renamed : world := (rename_mine 0 "Mine1" "MineX" logged).1.

(** ** Issuance dashboard (lines 175-188)

    The three totals above the issuance table; nothing is shown while the
    list is empty. *)
Definition issuance_dashboard (w : world) : option totals :=
  match data w with
  | _ :: _ => Some (quantity_sums (data w))
  | [] => None
  end.

(** ** Stock balance cards and low-stock warnings (lines 190-207) *)

Definition min_threshold : Z := 10.

Record balance_card := mkCard {
  card_type : string;
  available : Z;      (* st.metric("Available ...", int(balance.get(type, 0))) *)
  low_stock : bool    (* st.warning("Low ... stock!") *)
}.

Definition balance_card_of (balance : gmap string Z) (type : string) : balance_card :=
  {| card_type := type;
     available := default 0 (balance !! type);
     low_stock := bool_decide (default 0 (balance !! type) ≤ min_threshold) |}.

Definition stock_balance_cards (w : world) : list balance_card :=
  let balance := get_stock_balance w in
  balance_card_of balance <$> ["Wabox Cartridges"; "Detonators"; "Safety Fuse (m)"].

(** ** Stock dashboard (lines 231-243)

    [stock_df[stock_df['Explosive Type'] == type]['Quantity'].sum()] for
    the three types; nothing is shown while the list is empty. *)
Definition stock_dashboard (w : world) : option totals :=
  match stock w with
  | _ :: _ =>
      let total type :=
        column_sum Quantity (filter (λ r, Explosive_Type r = type) (stock w)) in
      Some (total "Wabox Cartridges", total "Detonators", total "Safety Fuse (m)")
  | [] => None
  end.

(** ** Current stock in magazine (lines 277-285)

    [stock_df.groupby('Explosive Type')['Quantity'].sum().reset_index()] *)
Definition stock_summary (w : world) : list (string * Z) :=
  match stock w with
  | _ :: _ =>
      (λ k, (k, column_sum Quantity (filter (λ r, Explosive_Type r = k) (stock w))))
        <$> merge_sort String.le (remove_dups (Explosive_Type <$> stock w))
  | [] => []
  end.

(** ** Reports tab (lines 247-272) *)

Inductive report_type := Summary_report | Monthly_report | Mine_wise_report | All_Data_report.

Inductive report_view :=
  | ShowSummary (rows : list (string * totals))
  | ShowMonthly (rows : list ((period * string) * totals))
  | ShowMineWise (rows : list ((string * period) * totals))
  | ShowAllData (rows : list (IssuanceRecord * period))
  | NoData.                (* st.info("No data available for this report.") *)

(** [df_report = reports[report_type]], shown unless [df_report.empty] *)
Definition reports_tab (rt : report_type) (w : world) : report_view :=
  let reports := get_reports w in
  match rt with
  | Summary_report =>
      match Summary reports with [] => NoData | rows => ShowSummary rows end
  | Monthly_report =>
      match Monthly reports with [] => NoData | rows => ShowMonthly rows end
  | Mine_wise_report =>
      match Mine_wise reports with [] => NoData | rows => ShowMineWise rows end
  | All_Data_report =>
      match All_Data reports with [] => NoData | rows => ShowAllData rows end
  end.

(** ** Filtered dashboard (lines 287-327) *)

(** Order of the time stamps [pd.to_datetime] makes of dates. *)
Definition date_le : relation dtdate :=
  λ a b, lex_le Z.le (lex_le Z.le Z.le) (year a, (month a, day a)) (year b, (month b, day b)).

Global Instance date_le_dec : RelDecision date_le.
Proof. intros a b. unfold date_le. apply _. Defined.

(** [[df['Date'].min(), df['Date'].max()]], the default of the date range
    widget; the block only runs on a non-empty list. *)
Definition default_date_range (df : list IssuanceRecord) : option (dtdate * dtdate) :=
  match df with
  | [] => None
  | e :: rest =>
      Some (foldr (λ d acc, if decide (date_le d acc) then d else acc) (Date e) (Date <$> rest),
            foldr (λ d acc, if decide (date_le acc d) then d else acc) (Date e) (Date <$> rest))
  end.

(** [df[mask]] for the mask of lines 300-304 *)
Definition apply_filters (mine_filter : list string) (date_range : dtdate * dtdate)
    (df : list IssuanceRecord) : list IssuanceRecord :=
  filter (λ e, Mine e ∈ mine_filter
               ∧ date_le date_range.1 (Date e) ∧ date_le (Date e) date_range.2) df.

Record dashboard := mkDashboard {
  df_filtered : list IssuanceRecord;
  filtered_totals : totals;                              (* the three metrics *)
  chart_data : list (string * totals);                   (* groupby('Mine') *)
  monthly_summary : list ((period * string) * totals)    (* groupby(['Month', 'Mine']) *)
}.

(** [None] is [st.info("No data entered yet.")]. *)
Definition filtered_dashboard (mine_filter : list string) (date_range : dtdate * dtdate)
    (w : world) : option dashboard :=
  match data w with
  | [] => None
  | _ :: _ =>
      let df := apply_filters mine_filter date_range (data w) in
      Some {| df_filtered := df;
              filtered_totals := quantity_sums df;
              chart_data := groupby_sums String.le Mine df;
              monthly_summary := groupby_sums month_mine_le (λ e, (Month e, Mine e)) df |}
  end.

(** ** Whole sessions *)

(** What a user can do to the session: one of the two sidebar operations,
    a submitted issuance entry, a submitted stock receipt. *)
Inductive action :=
  | Sidebar (op : mine_op)
  | SubmitEntry (e : IssuanceRecord)
  | SubmitStock (r : StockRecord).

Definition run_action (a : action) (w : world) : world :=
  match a with
  | Sidebar op => run_mine_op op w
  | SubmitEntry e => (entry_form true e w).1
  | SubmitStock r => (add_stock_form true r w).1
  end.

Definition run_actions (l : list action) (w : world) : world :=
  foldl (λ w a, run_action a w) w l.

(** the session after 1024 entries of 2^53 - 1 cartridges for "Mine1" and
    one such entry for "Mine2" *)
Definition heavy_session : world :=
  run_actions (SubmitEntry <$> (replicate 1024 (heavy_entry "Mine1") ++ [heavy_entry "Mine2"]))
    initial.

(** Every record names a mine of the registry. *)
Definition records_registered (w : world) : Prop :=
  Forall (λ e, Mine e ∈ mines w) (data w).

(** The entries of a run come out of the widgets of [entry_form]: each
    names a mine that is registered when it is submitted. *)
Fixpoint from_selectbox (l : list action) (w : world) : Prop :=
  match l with
  | [] => True
  | a :: l =>
      match a with SubmitEntry e => Mine e ∈ mines w | _ => True end
      ∧ from_selectbox l (run_action a w)
  end.

Definition is_rename (a : action) : bool :=
  match a with Sidebar (RenameMine _ _) => true | _ => false end.

(** the column of type [t] in a triple of totals *)
Definition totals_of (t : explosive) (x : totals) : Z :=
  match t with
  | Wabox => x.1.1
  | Detonator => x.1.2
  | Fuse => x.2
  end.

(** sum of report rows *)
Definition totals_sum (rows : list totals) : totals := foldr totals_add (0, 0, 0) rows.

(** the name the registry holds at a place after the rename loop, given
    the name before and the text of the place's widget *)
Definition renamed_to (mine : string) (input : option string) : string :=
  match input with
  | Some new_name => if bool_decide (new_name ≠ mine) && bool_decide (new_name ≠ "")
                     then new_name else mine
  | None => mine
  end.

(** * Properties *)

(** ** int64 and float64 *)

Lemma wrap64_id (z : Z) : - 2 ^ 63 ≤ z < 2 ^ 63 → wrap64 z = z.
Proof. intros Hz. unfold wrap64. rewrite Z.mod_small by lia. lia. Qed.

Lemma wrap64_add_r (a b : Z) : wrap64 (a + wrap64 b) = wrap64 (a + b).
Proof.
  unfold wrap64.
  replace (a + ((b + 2 ^ 63) mod 2 ^ 64 - 2 ^ 63) + 2 ^ 63)
    with (a + (b + 2 ^ 63) mod 2 ^ 64) by lia.
  rewrite Zplus_mod_idemp_r. do 2 f_equal. lia.
Qed.

Lemma wrap64_add_l (a b : Z) : wrap64 (wrap64 a + b) = wrap64 (a + b).
Proof. rewrite (Z.add_comm (wrap64 a)), wrap64_add_r. f_equal. lia. Qed.

(** float64 holds every integer up to 2^53 as it is. *)
Lemma float64_of_Z_exact (z : Z) : - 2 ^ 53 ≤ z ≤ 2 ^ 53 → float64_of_Z z = z.
Proof.
  intros Hz. unfold float64_of_Z. destruct (Z.ltb_spec (Z.abs z) (2 ^ 53)) as [|Hge]; [done|].
  assert (z = 2 ^ 53 ∨ z = - 2 ^ 53) as [-> | ->] by lia; reflexivity.
Qed.

(** ** Sums and series *)

Section series.
Context {A : Type}.
Implicit Types (df : list A) (val : A → Z) (key : A → string).

Lemma exact_sum_app val df1 df2 :
  exact_sum val (df1 ++ df2) = exact_sum val df1 + exact_sum val df2.
Proof. induction df1 as [|r df1 IH]; simpl; [done | rewrite IH; lia]. Qed.

Lemma exact_sum_nonneg val df : Forall (λ r, 0 ≤ val r) df → 0 ≤ exact_sum val df.
Proof. induction 1; simpl; lia. Qed.

Lemma Forall_filter (Q P : A → Prop) `{!∀ x, Decision (P x)} df :
  Forall Q df → Forall Q (filter P df).
Proof.
  rewrite !Forall_forall. intros HQ x [_ Hx]%list_elem_of_filter. by apply HQ.
Qed.

Lemma exact_sum_filter_le val (P : A → Prop) `{!∀ x, Decision (P x)} df :
  Forall (λ r, 0 ≤ val r) df → exact_sum val (filter P df) ≤ exact_sum val df.
Proof.
  induction 1 as [|r df Hr _ IH]; [done|].
  destruct (decide (P r)).
  - rewrite filter_cons_True by done. simpl. lia.
  - rewrite filter_cons_False by done. simpl. lia.
Qed.

(** The int64 sum is the exact sum, wrapped. *)
Lemma column_sum_exact val df : column_sum val df = wrap64 (exact_sum val df).
Proof.
  induction df as [|r df IH]; simpl; [done|].
  fold (column_sum val df). by rewrite IH, wrap64_add_r.
Qed.

(** It is the exact sum when that one fits. *)
Lemma column_sum_small val df :
  Forall (λ r, 0 ≤ val r) df → exact_sum val df < 2 ^ 63 →
  column_sum val df = exact_sum val df.
Proof.
  intros Hpos Hlt. rewrite column_sum_exact. apply wrap64_id.
  pose proof (exact_sum_nonneg _ _ Hpos). lia.
Qed.

(** A group that does not occur has no entry. *)
Lemma groupby_sum_lookup_None key val df k :
  groupby_sum key val df !! k = None ↔ k ∉ key <$> df.
Proof.
  induction df as [|r df IH]; simpl.
  - rewrite lookup_empty. split; [intros _; apply not_elem_of_nil | done].
  - fold (groupby_sum key val df). rewrite not_elem_of_cons, <- IH.
    destruct (decide (key r = k)) as [Heq|Hne].
    + rewrite Heq, lookup_insert_eq. split; [done | by intros [? _]].
    + rewrite lookup_insert_ne by done. split; [by split | by intros [_ ?]].
Qed.

(** The entry of a group is the int64 sum of its rows (0 for no rows). *)
Lemma groupby_sum_default key val df k :
  default 0 (groupby_sum key val df !! k)
  = column_sum val (filter (λ r, key r = k) df).
Proof.
  induction df as [|r df IH]; simpl; [by rewrite lookup_empty|].
  fold (groupby_sum key val df). destruct (decide (key r = k)) as [Heq|Hne].
  - rewrite filter_cons_True by done. rewrite Heq, lookup_insert_eq.
    simpl. by rewrite IH.
  - rewrite lookup_insert_ne, filter_cons_False by done. apply IH.
Qed.
End series.

Lemma subtract_lookup fill (a b : gmap string Z) k :
  subtract fill a b !! k =
    match a !! k, b !! k with
    | None, None => None
    | x, y =>
        Some (if bool_decide (dom a = dom b)
              then wrap64 (default fill x - default fill y)
              else float64_of_Z (float64_of_Z (default fill x)
                                 - float64_of_Z (default fill y)))
    end.
Proof.
  unfold subtract. destruct (bool_decide (dom a = dom b));
    rewrite lookup_merge; by destruct (a !! k), (b !! k).
Qed.

Global Instance label_inj : Inj (=) (=) label.
Proof. intros [] [] ?; done. Qed.

Lemma explosive_types_eq :
  explosive_types = ["Wabox Cartridges"; "Detonators"; "Safety Fuse (m)"].
Proof. reflexivity. Qed.

Lemma constant_series_types t : constant_series 0 explosive_types !! label t = Some 0.
Proof. by destruct t. Qed.

Lemma issued_series_lookup (df : list IssuanceRecord) t :
  (list_to_map ((λ t, (label t, column_sum (issued_column t) df)) <$> all_explosives)
     : gmap string Z) !! label t
  = Some (column_sum (issued_column t) df).
Proof. by destruct t. Qed.

(** The balance of a type is the difference of the two int64 sums, taken
    in int64 or, after padding, in float64. *)
Lemma balance_lookup (w : world) (t : explosive) :
  get_stock_balance w !! label t
  = Some (wrap64 (received (label t) (stock w) - issued t (data w)))
  ∨ get_stock_balance w !! label t
    = Some (float64_of_Z (float64_of_Z (received (label t) (stock w))
                          - float64_of_Z (issued t (data w)))).
Proof.
  unfold get_stock_balance, received, issued. rewrite subtract_lookup.
  assert (∀ s : list StockRecord,
    default 0 (match s with
               | _ :: _ => groupby_sum Explosive_Type Quantity s
               | [] => constant_series 0 explosive_types
               end !! label t)
    = column_sum Quantity (filter (λ r, Explosive_Type r = label t) s)) as Hrec.
  { intros [|r s]; [by rewrite constant_series_types | apply groupby_sum_default]. }
  assert (∀ d : list IssuanceRecord,
    match d with
    | _ :: _ => list_to_map ((λ t, (label t, column_sum (issued_column t) d))
                               <$> all_explosives)
    | [] => constant_series 0 explosive_types
    end !! label t = Some (column_sum (issued_column t) d)) as Hiss.
  { intros [|e d]; [by rewrite constant_series_types | apply issued_series_lookup]. }
  rewrite Hiss, <- Hrec. simpl.
  destruct (bool_decide _); [left | right]; by destruct (_ !! label t).
Qed.

(** Below 2^53 both ways of taking the difference are exact. *)
Lemma balance_lookup_exact (w : world) (t : explosive) :
  Forall (λ r, 0 ≤ Quantity r) (stock w) →
  Forall (λ e, 0 ≤ issued_column t e) (data w) →
  exact_received (label t) (stock w) ≤ 2 ^ 53 →
  exact_sum (issued_column t) (data w) ≤ 2 ^ 53 →
  get_stock_balance w !! label t
  = Some (exact_received (label t) (stock w) - exact_sum (issued_column t) (data w)).
Proof.
  intros Hs Hd Hr Hi. unfold exact_received in *.
  assert (0 ≤ exact_sum Quantity (filter (λ r, Explosive_Type r = label t) (stock w))) as Hr0.
  { apply exact_sum_nonneg. by apply Forall_filter. }
  pose proof (exact_sum_nonneg _ _ Hd) as Hi0.
  assert (received (label t) (stock w)
          = exact_sum Quantity (filter (λ r, Explosive_Type r = label t) (stock w))) as Hrec.
  { unfold received. apply column_sum_small; [by apply Forall_filter | lia]. }
  assert (issued t (data w) = exact_sum (issued_column t) (data w)) as Hiss.
  { unfold issued. apply column_sum_small; [done | lia]. }
  destruct (balance_lookup w t) as [-> | ->]; rewrite Hrec, Hiss; f_equal.
  - apply wrap64_id. lia.
  - rewrite (float64_of_Z_exact (exact_sum Quantity _)) by lia.
    rewrite (float64_of_Z_exact (exact_sum (issued_column t) _)) by lia.
    apply float64_of_Z_exact. lia.
Qed.




Lemma exact_received_app k s1 s2 :
  exact_received k (s1 ++ s2) = exact_received k s1 + exact_received k s2.
Proof. unfold exact_received. by rewrite filter_app, exact_sum_app. Qed.

Lemma exact_received_singleton k r :
  exact_received k [r] = if decide (Explosive_Type r = k) then Quantity r else 0.
Proof.
  unfold exact_received. case_decide.
  - rewrite filter_cons_True by done. simpl. lia.
  - by rewrite filter_cons_False by done.
Qed.

(** C6 (amended): with non-negative quantities and as long as, the new
    record included, the quantity received and the quantity issued of
    every type are at most 2^53, the balance is linear in the two lists.
    Appending a stock record of type T and quantity q raises balance[T] by
    exactly q and leaves the other two balances as they were; appending an
    issuance record that carries q for T and 0 for the other types lowers
    balance[T] by exactly q (and leaves the other two as they were). *)
Theorem C6_balance_linear (w : world) (t : explosive) (q : Z)
    (r : StockRecord) (e : IssuanceRecord) :
  Explosive_Type r = label t → Quantity r = q →
  issued_column t e = q → (∀ t', t' ≠ t → issued_column t' e = 0) →
  0 ≤ q →
  Forall (λ r, 0 ≤ Quantity r) (stock w) →
  (∀ t', Forall (λ e, 0 ≤ issued_column t' e) (data w)) →
  (∀ t', exact_received (label t') (stock w ++ [r]) ≤ 2 ^ 53) →
  (∀ t', exact_sum (issued_column t') (data w ++ [e]) ≤ 2 ^ 53) →
  ∃ b : Z,
    get_stock_balance w !! label t = Some b
    ∧ get_stock_balance (with_stock (stock w ++ [r]) w) !! label t = Some (b + q)
    ∧ (∀ t', t' ≠ t →
         get_stock_balance (with_stock (stock w ++ [r]) w) !! label t'
         = get_stock_balance w !! label t')
    ∧ get_stock_balance (with_data (data w ++ [e]) w) !! label t = Some (b - q)
    ∧ (∀ t', t' ≠ t →
         get_stock_balance (with_data (data w ++ [e]) w) !! label t'
         = get_stock_balance w !! label t').
Proof.
  intros Hty Hq He Hothers Hq0 Hs Hd Hr Hi.
  assert (∀ t', 0 ≤ issued_column t' e) as He0.
  { intros t'. destruct (decide (t' = t)) as [->|Hne]; [lia|]. by rewrite Hothers. }
  assert (∀ t', 0 ≤ exact_received (label t') (stock w)) as Hr0.
  { intros t'. apply exact_sum_nonneg. by apply Forall_filter. }
  assert (∀ t', 0 ≤ exact_sum (issued_column t') (data w)) as Hi0.
  { intros t'. by apply exact_sum_nonneg. }
  assert (∀ t', exact_received (label t') [r] = if decide (t' = t) then q else 0) as Hr1.
  { intros t'. rewrite exact_received_singleton, Hty, Hq.
    destruct (decide (t' = t)) as [->|Hne]; [by rewrite decide_True|].
    rewrite decide_False; [done|]. intros Heq. by apply (inj label) in Heq. }
  assert (∀ t', exact_sum (issued_column t') [e] = if decide (t' = t) then q else 0) as Hi1.
  { intros t'. simpl. destruct (decide (t' = t)) as [->|Hne]; [lia|].
    rewrite Hothers by done. lia. }
  assert (∀ t', get_stock_balance w !! label t'
                = Some (exact_received (label t') (stock w)
                        - exact_sum (issued_column t') (data w))) as Hbal.
  { intros t'. apply balance_lookup_exact; [done | apply Hd | |].
    - specialize (Hr t'). rewrite exact_received_app, Hr1 in Hr. case_decide; lia.
    - specialize (Hi t'). rewrite exact_sum_app, Hi1 in Hi. case_decide; lia. }
  assert (∀ t', get_stock_balance (with_stock (stock w ++ [r]) w) !! label t'
                = Some (exact_received (label t') (stock w ++ [r])
                        - exact_sum (issued_column t') (data w))) as Hbal_s.
  { intros t'. apply (balance_lookup_exact (with_stock (stock w ++ [r]) w) t'); simpl;
      [|apply Hd|apply Hr|].
    - apply Forall_app. split; [done|]. constructor; [lia | constructor].
    - specialize (Hi t'). rewrite exact_sum_app, Hi1 in Hi. case_decide; lia. }
  assert (∀ t', get_stock_balance (with_data (data w ++ [e]) w) !! label t'
                = Some (exact_received (label t') (stock w)
                        - exact_sum (issued_column t') (data w ++ [e]))) as Hbal_d.
  { intros t'. apply (balance_lookup_exact (with_data (data w ++ [e]) w) t'); simpl;
      [done| | |apply Hi].
    - apply Forall_app. split; [apply Hd|]. constructor; [apply He0 | constructor].
    - specialize (Hr t'). rewrite exact_received_app, Hr1 in Hr. case_decide; lia. }
  eexists. split; [apply Hbal|]. repeat split.
  - rewrite Hbal_s, exact_received_app, Hr1, decide_True by done. f_equal. lia.
  - intros t' Hne. rewrite Hbal_s, Hbal, exact_received_app, Hr1, decide_False by done.
    f_equal. lia.
  - rewrite Hbal_d, exact_sum_app, Hi1, decide_True by done. f_equal. lia.
  - intros t' Hne. rewrite Hbal_d, Hbal, exact_sum_app, Hi1, decide_False by done.
    f_equal. lia.
Qed.

(** C6 on the fresh session, for 40 m of safety fuse received and issued. *)
Lemma C6_balance_linear_witness :
  ∃ b : Z,
    get_stock_balance initial !! label Fuse = Some b
    ∧ get_stock_balance
        (with_stock (stock initial ++ [mkStock "S1" (mkdate 2024 3 5) "Safety Fuse (m)" 40])
           initial) !! label Fuse = Some (b + 40)
    ∧ (∀ t', t' ≠ Fuse →
         get_stock_balance
           (with_stock (stock initial ++ [mkStock "S1" (mkdate 2024 3 5) "Safety Fuse (m)" 40])
              initial) !! label t'
         = get_stock_balance initial !! label t')
    ∧ get_stock_balance
        (with_data (data initial ++ [mkIssuance (mkdate 2024 3 6) "Mine1" "A" "B" "" 0 0 40])
           initial) !! label Fuse = Some (b - 40)
    ∧ (∀ t', t' ≠ Fuse →
         get_stock_balance
           (with_data (data initial ++ [mkIssuance (mkdate 2024 3 6) "Mine1" "A" "B" "" 0 0 40])
              initial) !! label t'
         = get_stock_balance initial !! label t').
Proof.
  apply (C6_balance_linear initial Fuse 40
           (mkStock "S1" (mkdate 2024 3 5) "Safety Fuse (m)" 40)
           (mkIssuance (mkdate 2024 3 6) "Mine1" "A" "B" "" 0 0 40)).
  - reflexivity.
  - reflexivity.
  - reflexivity.
  - intros [] Hne; [reflexivity | reflexivity | by destruct Hne].
  - done.
  - constructor.
  - intros t'. constructor.
  - intros []; done.
  - intros []; done.
Defined.

(** C6 as stated fails above 2^53: with detonator receipts of 2^53 - 1 and
    of 1 in stock the balance is 2^53; one more receipt of 1 detonator
    leaves it at 2^53, since float64 has no 2^53 + 1. *)
Lemma C6_receipt_lost_in_rounding :
  get_stock_balance full_and_one !! "Detonators" = Some (2 ^ 53)
  ∧ get_stock_balance
      (with_stock (stock full_and_one
                   ++ [mkStock "S3" (mkdate 2024 3 1) "Detonators" 1]) full_and_one)
      !! "Detonators" = Some (2 ^ 53)
  ∧ get_stock_balance
      (with_stock (stock full_and_one
                   ++ [mkStock "S3" (mkdate 2024 3 1) "Detonators" 1]) full_and_one)
      !! "Detonators" ≠ Some (2 ^ 53 + 1).
Proof.
  split; [vm_compute; reflexivity|]. split; [vm_compute; reflexivity|].
  vm_compute. discriminate.
Qed.

(** ** Writing a frame *)

Lemma list_difference_nil_r (l : list string) : list_difference l [] = l.
Proof.
  induction l as [|x l IH]; simpl; [done|].
  destruct (decide_rel elem_of x []) as [Hin|_]; [by apply elem_of_nil in Hin|].
  by rewrite IH.
Qed.

Lemma list_difference_self (l k : list string) : l ⊆ k → list_difference l k = [].
Proof.
  induction l as [|x l IH]; simpl; intros Hsub; [done|].
  destruct (decide_rel elem_of x k) as [_|Hnin].
  - apply IH. intros y Hy. apply Hsub. by right.
  - destruct Hnin. apply Hsub. by left.
Qed.

Lemma frame_columns_from (ks : list string) (rows : list dict) :
  Forall (λ d, d.*1 = ks) rows →
  foldl (λ cols d, cols ++ list_difference (d.*1) cols) ks rows = ks.
Proof.
  induction 1 as [|d rows Hd _ IH]; simpl; [done|].
  rewrite Hd, list_difference_self, app_nil_r by done. apply IH.
Qed.

(** Records that all carry the keys [ks], in that order, give a frame with
    the columns [ks]. *)
Lemma frame_columns_uniform (ks : list string) (rows : list dict) :
  rows ≠ [] → Forall (λ d, d.*1 = ks) rows → frame_columns rows = ks.
Proof.
  intros Hne Hall. destruct Hall as [|d rows Hd Hall]; [done|].
  unfold frame_columns. simpl. rewrite Hd, list_difference_nil_r.
  by apply frame_columns_from.
Qed.

Lemma to_csv_ok (file : string) (df : DataFrame) (w : world) :
  disk_ok w = true → disk (to_csv file df w) !! file = Some df.
Proof. intros Hok. unfold to_csv. rewrite Hok. simpl. apply lookup_insert_eq. Qed.

(** Whatever a write does, it does to the one file only. *)
Lemma to_csv_frame (file : string) (df : DataFrame) (w : world) :
  data (to_csv file df w) = data w
  ∧ stock (to_csv file df w) = stock w
  ∧ mines (to_csv file df w) = mines w
  ∧ disk_ok (to_csv file df w) = disk_ok w
  ∧ disk_torn (to_csv file df w) = disk_torn w
  ∧ (∀ other, other ≠ file → disk (to_csv file df w) !! other = disk w !! other).
Proof.
  unfold to_csv. destruct (disk_ok w) eqn:Hok; [|destruct (disk_torn w) eqn:Ht];
    simpl; rewrite ?Hok, ?Ht; repeat split; try done;
    intros other Hne; by apply lookup_insert_ne.
Qed.

Lemma save_issuance (l : list IssuanceRecord) (w : world) :
  l ≠ [] →
  save_csv_data DATA_FILE (issuance_dict <$> l) issuance_columns w
  = to_csv DATA_FILE (mkFrame issuance_columns (issuance_row <$> l)) w.
Proof.
  intros Hne. unfold save_csv_data, from_records.
  rewrite (frame_columns_uniform issuance_columns).
  - assert (empty {| columns := issuance_columns;
                     rows := (λ d, (λ c, default NaN (dict_get c d)) <$> issuance_columns)
                               <$> (issuance_dict <$> l) |} = false) as ->.
    { unfold empty. simpl. by destruct l. }
    unfold getitem. simpl columns. rewrite decide_True by done. simpl rows.
    rewrite <- !list_fmap_compose. done.
  - by destruct l.
  - apply Forall_fmap, Forall_forall. by intros e _.
Qed.

Lemma save_stock (l : list StockRecord) (w : world) :
  l ≠ [] →
  save_csv_data STOCK_FILE (stock_dict <$> l) stock_columns w
  = to_csv STOCK_FILE (mkFrame stock_columns (stock_row <$> l)) w.
Proof.
  intros Hne. unfold save_csv_data, from_records.
  rewrite (frame_columns_uniform stock_columns).
  - assert (empty {| columns := stock_columns;
                     rows := (λ d, (λ c, default NaN (dict_get c d)) <$> stock_columns)
                               <$> (stock_dict <$> l) |} = false) as ->.
    { unfold empty. simpl. by destruct l. }
    unfold getitem. simpl columns. rewrite decide_True by done. simpl rows.
    rewrite <- !list_fmap_compose. done.
  - by destruct l.
  - apply Forall_fmap, Forall_forall. by intros e _.
Qed.

Lemma save_nothing (file : string) (cols : list string) (w : world) :
  save_csv_data file [] cols w = to_csv file (mkFrame [] []) w.
Proof. reflexivity. Qed.

(** Reading a column back from a row that was laid out along [ks]. *)
Lemma dict_get_zip_project (d : dict) (ks : list string) (c : string) :
  c ∈ ks →
  dict_get c (zip ks ((λ c, default NaN (dict_get c d)) <$> ks))
  = Some (default NaN (dict_get c d)).
Proof.
  induction ks as [|k ks IH]; intros Hin; [by apply elem_of_nil in Hin|].
  simpl. destruct (decide (c = k)) as [->|Hne]; [done|].
  apply IH. apply elem_of_cons in Hin as [?|?]; done.
Qed.

(** [df[cols]] on a frame built from dicts projects every dict onto
    [cols], in the order of [cols]. *)
Lemma getitem_from_records (records : list dict) (cols : list string) :
  cols ⊆ frame_columns records →
  getitem cols (from_records records)
  = Some (mkFrame cols ((λ d, (λ c, default NaN (dict_get c d)) <$> cols) <$> records)).
Proof.
  intros Hsub. unfold getitem, from_records. simpl columns.
  rewrite decide_True by done. simpl rows. f_equal. f_equal.
  rewrite <- list_fmap_compose. apply list_fmap_ext. intros _ d _. simpl.
  apply list_fmap_ext. intros i c Hc. apply list_elem_of_lookup_2 in Hc.
  by rewrite dict_get_zip_project by (by apply Hsub).
Qed.

Lemma save_records (file : string) (records : list dict) (cols : list string) (w : world) :
  records ≠ [] → cols ⊆ frame_columns records →
  save_csv_data file records cols w
  = to_csv file (mkFrame cols ((λ d, (λ c, default NaN (dict_get c d)) <$> cols)
                                 <$> records)) w.
Proof.
  intros Hne Hsub. unfold save_csv_data.
  destruct (empty (from_records records)) eqn:Hempty.
  - unfold empty, from_records in Hempty. simpl in Hempty.
    apply orb_true_iff in Hempty as [Hc|Hr].
    + apply bool_decide_eq_true in Hc. rewrite Hc in Hsub.
      assert (cols = []) as ->.
      { destruct cols as [|c cols]; [done|]. specialize (Hsub c). 
        exfalso. eapply not_elem_of_nil, Hsub. by left. }
      unfold from_records. by rewrite Hc.
    + apply bool_decide_eq_true in Hr. by destruct records.
  - by rewrite getitem_from_records.
Qed.

(** C8 (amended): when the write succeeds, every non-empty collection is
    written under exactly the requested header, each record projected onto
    that column order (for issuance records: Date, Mine, Issued By,
    Received By, Remarks, Wabox Cartridges, Detonators, Safety Fuse (m);
    for stock records: Serial No, Receiving Date, Explosive Type,
    Quantity); the empty collection is written as a frame without header
    and without rows. *)
Theorem C8_saved_layout (w : world) :
  disk_ok w = true →
  (∀ (file : string) (records : list dict) (cols : list string),
     records ≠ [] → cols ⊆ frame_columns records →
     disk (save_csv_data file records cols w) !! file
     = Some (mkFrame cols ((λ d, (λ c, default NaN (dict_get c d)) <$> cols) <$> records)))
  ∧ (∀ l : list IssuanceRecord, l ≠ [] →
       disk (save_csv_data DATA_FILE (issuance_dict <$> l) issuance_columns w) !! DATA_FILE
       = Some (mkFrame ["Date"; "Mine"; "Issued By"; "Received By"; "Remarks";
                        "Wabox Cartridges"; "Detonators"; "Safety Fuse (m)"]
                       (issuance_row <$> l)))
  ∧ (∀ l : list StockRecord, l ≠ [] →
       disk (save_csv_data STOCK_FILE (stock_dict <$> l) stock_columns w) !! STOCK_FILE
       = Some (mkFrame ["Serial No"; "Receiving Date"; "Explosive Type"; "Quantity"]
                       (stock_row <$> l)))
  ∧ (∀ (file : string) (cols : list string),
       disk (save_csv_data file [] cols w) !! file = Some (mkFrame [] [])).
Proof.
  intros Hok. repeat split.
  - intros file records cols Hne Hsub. rewrite save_records by done. by apply to_csv_ok.
  - intros l Hne. rewrite save_issuance by done. by apply to_csv_ok.
  - intros l Hne. rewrite save_stock by done. by apply to_csv_ok.
  - intros file cols. rewrite save_nothing. by apply to_csv_ok.
Qed.

(** C8 on the fresh session, for the one-element issuance list. *)
Lemma C8_saved_layout_witness :
  disk (save_csv_data DATA_FILE (issuance_dict <$> [sample_entry]) issuance_columns initial)
    !! DATA_FILE
  = Some (mkFrame ["Date"; "Mine"; "Issued By"; "Received By"; "Remarks";
                   "Wabox Cartridges"; "Detonators"; "Safety Fuse (m)"]
                  (issuance_row <$> [sample_entry])).
Proof.
  apply (proj1 (proj2 (C8_saved_layout initial eq_refl)) [sample_entry]). discriminate.
Defined.

(** C8 as stated fails for the empty collection: the guard
    [df[columns] if not df.empty else df] writes the empty frame as it is,
    so the file carries no header. *)
Lemma C8_empty_collection_has_no_header :
  columns <$> (disk (save_csv_data DATA_FILE (issuance_dict <$> []) issuance_columns initial)
                 !! DATA_FILE)
  = Some []
  ∧ columns <$> (disk (save_csv_data DATA_FILE (issuance_dict <$> []) issuance_columns initial)
                   !! DATA_FILE)
    ≠ Some issuance_columns.
Proof. split; [reflexivity | discriminate]. Qed.

(** ** The submit handlers *)

Lemma entry_form_submitted (e : IssuanceRecord) (w : world) :
  entry_form true e w
  = (to_csv DATA_FILE (mkFrame issuance_columns (issuance_row <$> (data w ++ [e])))
       (with_data (data w ++ [e]) w),
     [EntryAdded (Mine e) (Date e)]).
Proof.
  unfold entry_form. simpl data. rewrite save_issuance by (by destruct (data w)).
  done.
Qed.

Lemma add_stock_form_accepted (r : StockRecord) (w : world) :
  0 < Quantity r → Serial_No r ≠ "" →
  add_stock_form true r w
  = (to_csv STOCK_FILE (mkFrame stock_columns (stock_row <$> (stock w ++ [r])))
       (with_stock (stock w ++ [r]) w),
     [AddedStock (Explosive_Type r) (Quantity r)]).
Proof.
  intros Hq Hs. unfold add_stock_form.
  rewrite !bool_decide_eq_true_2 by done. simpl andb. cbv iota. simpl stock.
  rewrite save_stock by (by destruct (stock w)). done.
Qed.

Lemma add_stock_form_rejected (r : StockRecord) (w : world) :
  ¬ (Serial_No r ≠ "" ∧ 0 < Quantity r) →
  add_stock_form true r w = (w, [EnterSerialAndQuantity]).
Proof.
  intros Hbad. unfold add_stock_form.
  destruct (bool_decide (0 < Quantity r)) eqn:Hq; simpl; [|done].
  destruct (bool_decide (Serial_No r ≠ "")) eqn:Hs; simpl; [|done].
  apply bool_decide_eq_true in Hq, Hs. by destruct Hbad.
Qed.

(** C5: with the button pressed, the stock record is appended and the
    stock file rewritten exactly when the serial number is non-empty and
    the quantity is strictly positive; otherwise the form answers with its
    warning and nothing changes. An empty serial with quantity 5 is
    refused; a serial number that is already in the list is accepted. *)
Theorem C5_add_stock_validation :
  (∀ (r : StockRecord) (w : world),
     (Serial_No r ≠ "" ∧ 0 < Quantity r →
        stock (add_stock_form true r w).1 = stock w ++ [r]
        ∧ data (add_stock_form true r w).1 = data w
        ∧ mines (add_stock_form true r w).1 = mines w
        ∧ (disk_ok w = true → stock_file_current (add_stock_form true r w).1)
        ∧ (add_stock_form true r w).2 = [AddedStock (Explosive_Type r) (Quantity r)])
     ∧ (¬ (Serial_No r ≠ "" ∧ 0 < Quantity r) →
        add_stock_form true r w = (w, [EnterSerialAndQuantity])))
  ∧ level_of EnterSerialAndQuantity = warning
  ∧ (∀ (d : dtdate) (t : string) (w : world),
       add_stock_form true (mkStock "" d t 5) w = (w, [EnterSerialAndQuantity]))
  ∧ (∀ (r : StockRecord) (w : world),
       r ∈ stock w → Serial_No r ≠ "" → 0 < Quantity r →
       stock (add_stock_form true r w).1 = stock w ++ [r]).
Proof.
  split; [|split; [done|split]].
  - intros r w. split.
    + intros [Hs Hq]. rewrite add_stock_form_accepted by done. simpl.
      destruct (to_csv_frame STOCK_FILE
                  (mkFrame stock_columns (stock_row <$> (stock w ++ [r])))
                  (with_stock (stock w ++ [r]) w)) as (Hd & Hst & Hm & _).
      unfold stock_file_current. rewrite Hd, Hst, Hm. repeat split; try done.
      intros Hok. by apply to_csv_ok.
    + apply add_stock_form_rejected.
  - intros d t w. by apply add_stock_form_rejected; intros [? _].
  - intros r w _ Hs Hq. rewrite add_stock_form_accepted by done. simpl.
    apply to_csv_frame.
Qed.




(** ** The sidebar *)

Lemma rename_mine_renames (i : nat) (mine new_name : string) (w : world) :
  new_name ≠ mine → new_name ≠ "" →
  rename_mine i mine new_name w
  = (with_mines (<[i := new_name]> (mines w))
       (with_data (rename_entries mine new_name (data w)) w),
     [RenamedMine mine new_name]).
Proof. intros ??. unfold rename_mine. by rewrite !bool_decide_eq_true_2. Qed.

Lemma rename_mine_idle (i : nat) (mine new_name : string) (w : world) :
  new_name = mine ∨ new_name = "" → rename_mine i mine new_name w = (w, []).
Proof.
  intros [->| ->]; unfold rename_mine.
  - by rewrite bool_decide_eq_false_2 by (by intros ?).
  - rewrite (bool_decide_eq_false_2 ("" ≠ "")) by (by intros ?).
    by rewrite andb_false_r.
Qed.

(** Neither sidebar operation writes a file. *)
Lemma rename_mine_disk (i : nat) (mine new_name : string) (w : world) :
  disk (rename_mine i mine new_name w).1 = disk w.
Proof. unfold rename_mine. by destruct (_ && _). Qed.

Lemma add_mine_form_disk (btn : bool) (new_mine : string) (w : world) :
  disk (add_mine_form btn new_mine w).1 = disk w.
Proof.
  unfold add_mine_form. destruct (_ && _); [|done].
  by destruct (bool_decide (new_mine ∉ mines w)).
Qed.

(** [add_mine_form] keeps the registry free of duplicates, and refuses a
    registered name. *)
Lemma add_mine_form_NoDup (btn : bool) (new_mine : string) (w : world) :
  NoDup (mines w) → NoDup (mines (add_mine_form btn new_mine w).1).
Proof.
  intros Hnd. unfold add_mine_form. destruct (_ && _); [|done].
  destruct (bool_decide (new_mine ∉ mines w)) eqn:Hfresh; [|done].
  apply bool_decide_eq_true in Hfresh.
  simpl. apply NoDup_app. repeat split; [done| |apply NoDup_singleton].
  intros x Hx Hx'. apply list_elem_of_singleton in Hx' as ->. done.
Qed.

Lemma add_mine_form_duplicate (new_mine : string) (w : world) :
  new_mine ∈ mines w → new_mine ≠ "" →
  add_mine_form true new_mine w = (w, [MineAlreadyExists]).
Proof.
  intros Hin Hne. unfold add_mine_form. rewrite bool_decide_eq_true_2 by done.
  by rewrite bool_decide_eq_false_2 by (by intros ?).
Qed.

Lemma rename_loop_idle (inputs : nat → option string) (n i : nat) (w : world) :
  (∀ j mine, mines w !! j = Some mine →
             inputs j = None ∨ inputs j = Some mine ∨ inputs j = Some "") →
  rename_loop inputs n i w = (w, []).
Proof.
  intros Hin. revert i. induction n as [|n IH]; intros i; simpl; [done|].
  destruct (mines w !! i) as [mine|] eqn:Hi; [|done].
  rewrite rename_mine_idle, IH; [done|].
  destruct (Hin i mine Hi) as [-> | [-> | ->]]; simpl; auto.
Qed.

(** C10: an empty name submitted to the add-mine form changes nothing and
    shows no message at all; a rename widget whose text is empty or equal
    to the current name changes nothing either (for one widget and for the
    whole loop); only a non-empty text that differs from the current name
    renames the registry entry and rewrites the records of that mine. *)
Theorem C10_empty_and_unchanged_names_are_ignored :
  (∀ (btn : bool) (w : world), add_mine_form btn "" w = (w, []))
  ∧ (∀ (i : nat) (mine : string) (w : world),
       rename_mine i mine "" w = (w, []) ∧ rename_mine i mine mine w = (w, []))
  ∧ (∀ (inputs : nat → option string) (w : world),
       (∀ j mine, mines w !! j = Some mine →
                  inputs j = None ∨ inputs j = Some mine ∨ inputs j = Some "") →
       rename_mines inputs w = (w, []))
  ∧ (∀ (i : nat) (mine new_name : string) (w : world),
       (rename_mine i mine new_name w).2 = [RenamedMine mine new_name]
       ↔ new_name ≠ "" ∧ new_name ≠ mine)
  ∧ (∀ (i : nat) (mine new_name : string) (w : world),
       new_name ≠ "" → new_name ≠ mine →
       mines (rename_mine i mine new_name w).1 = <[i := new_name]> (mines w)
       ∧ data (rename_mine i mine new_name w).1
         = rename_entries mine new_name (data w)).
Proof.
  split; [|split; [|split; [|split]]].
  - intros btn w. unfold add_mine_form.
    rewrite (bool_decide_eq_false_2 ("" ≠ "")) by (by intros ?). by rewrite andb_false_r.
  - intros i mine w. split; apply rename_mine_idle; auto.
  - intros inputs w Hin. unfold rename_mines.
    destruct (mines w) eqn:Hm; [done|]. apply rename_loop_idle. by rewrite Hm.
  - intros i mine new_name w. split.
    + intros Hout. destruct (decide (new_name = mine)) as [Heq|Hne].
      { rewrite rename_mine_idle in Hout by auto. done. }
      destruct (decide (new_name = "")) as [Heq'|Hne'].
      { rewrite rename_mine_idle in Hout by auto. done. }
      done.
    + intros [??]. by rewrite rename_mine_renames.
  - intros i mine new_name w ??. by rewrite rename_mine_renames.
Qed.

(** C3, at the input where it fails: on the initial registry, typing
    "Mine2" into the rename widget of "Mine1" is accepted, and the
    registry then lists "Mine2" twice. *)
Theorem C3_rename_duplicates_a_name :
  NoDup (mines initial)
  ∧ mines (run_mine_ops [RenameMine 0 "Mine2"] initial) = ["Mine2"; "Mine2"; "Mine3"]
  ∧ ¬ NoDup (mines (run_mine_ops [RenameMine 0 "Mine2"] initial)).
Proof.
  split; [|split].
  - apply (bool_decide_unpack (NoDup (mines initial))). by vm_compute.
  - reflexivity.
  - intros Hnd. simpl in Hnd. apply NoDup_cons in Hnd as [Hnin _].
    apply Hnin. by left.
Qed.

(** C7, at the input where it fails: after an entry for "Mine1" was
    submitted the issuance file holds the whole list; renaming "Mine1" to
    "MineX" then rewrites the record in memory and leaves the file as it
    was, so the file no longer matches the list. *)
Theorem C7_rename_leaves_file_stale :
  disk_ok logged = true
  ∧ issuance_file_current logged
  ∧ data logged_renamed = [set_Mine "MineX" sample_entry]
  ∧ data logged_renamed ≠ data logged
  ∧ disk logged_renamed = disk logged
  ∧ ¬ issuance_file_current logged_renamed.
Proof.
  repeat split; done.
Qed.

(** ** Orders of the report indexes *)

Section lex.
Context {A B : Type} (RA : relation A) (RB : relation B).
Context `{!EqDecision A} `{!PartialOrder RA} `{!PartialOrder RB}.

Global Instance lex_le_po : PartialOrder (lex_le RA RB).
Proof.
  split; [split|].
  - intros [a b]. right. by split.
  - intros [a1 b1] [a2 b2] [a3 b3]. unfold lex_le. simpl.
    intros [[Hne1 H1]|[Heq1 H1]] [[Hne2 H2]|[Heq2 H2]]; subst.
    + left. split; [|by etrans]. intros ->. apply Hne1. by apply (anti_symm RA).
    + by left.
    + by left.
    + right. split; [done | by etrans].
  - intros [a1 b1] [a2 b2]. unfold lex_le. simpl.
    intros [[Hne1 H1]|[Heq1 H1]] [[Hne2 H2]|[Heq2 H2]]; subst; try done.
    + destruct Hne1. by apply (anti_symm RA).
    + f_equal. by apply (anti_symm RB).
Qed.

Global Instance lex_le_total `{!Total RA} `{!Total RB} : Total (lex_le RA RB).
Proof.
  intros [a1 b1] [a2 b2]. unfold lex_le. simpl.
  destruct (decide (a1 = a2)) as [->|Hne].
  - destruct (total RB b1 b2); [left | right]; right; done.
  - destruct (total RA a1 a2); [left | right]; left; split; done.
Qed.
End lex.

Global Instance period_le_po : PartialOrder period_le.
Proof. unfold period_le. apply _. Qed.
Global Instance period_le_total : Total period_le.
Proof. unfold period_le. apply _. Qed.
Global Instance month_mine_le_po : PartialOrder month_mine_le.
Proof. unfold month_mine_le. apply _. Qed.
Global Instance month_mine_le_total : Total month_mine_le.
Proof. unfold month_mine_le. apply _. Qed.
Global Instance mine_month_le_po : PartialOrder mine_month_le.
Proof. unfold mine_month_le. apply _. Qed.
Global Instance mine_month_le_total : Total mine_month_le.
Proof. unfold mine_month_le. apply _. Qed.

(** ** Grouped sums *)

Section groupby.
Context {K : Type} `{!EqDecision K} (R : relation K) `{!RelDecision R}.
Context (key : IssuanceRecord → K).
Implicit Types (df : list IssuanceRecord) (k : K) (t : totals).

Lemma groupby_sums_keys df :
  (groupby_sums R key df).*1 = merge_sort R (remove_dups (key <$> df)).
Proof.
  unfold groupby_sums. rewrite <- list_fmap_compose.
  rewrite <- (list_fmap_id (merge_sort _ _)) at 2. by apply list_fmap_ext.
Qed.

(** One row per key that occurs, carrying the sums of the key's group. *)
Lemma elem_of_groupby_sums df k t :
  (k, t) ∈ groupby_sums R key df
  ↔ k ∈ key <$> df ∧ t = quantity_sums (filter (λ e, key e = k) df).
Proof.
  unfold groupby_sums. rewrite list_elem_of_fmap. split.
  - intros (k' & [= -> ->] & Hk). split; [|done].
    by rewrite merge_sort_Permutation, elem_of_remove_dups in Hk.
  - intros [Hk ->]. exists k. split; [done|].
    by rewrite merge_sort_Permutation, elem_of_remove_dups.
Qed.

Lemma groupby_sums_NoDup_keys df : NoDup (groupby_sums R key df).*1.
Proof.
  rewrite groupby_sums_keys, merge_sort_Permutation. apply NoDup_remove_dups.
Qed.

Lemma groupby_sums_NoDup df : NoDup (groupby_sums R key df).
Proof. eapply NoDup_fmap_1, groupby_sums_NoDup_keys. Qed.

Lemma groupby_sums_sorted `{!Transitive R} `{!Total R} df :
  StronglySorted R (groupby_sums R key df).*1.
Proof. rewrite groupby_sums_keys. by apply StronglySorted_merge_sort. Qed.
End groupby.

Lemma get_reports_eq (w : world) :
  get_reports w
  = {| Summary := groupby_sums String.le Mine (data w);
       Monthly := groupby_sums month_mine_le (λ e, (Month e, Mine e)) (data w);
       Mine_wise := groupby_sums mine_month_le (λ e, (Mine e, Month e)) (data w);
       All_Data := (λ e, (e, Month e)) <$> data w |}.
Proof. unfold get_reports. by destruct (data w). Qed.

Global Instance mine_first_inj : Inj (=) (=) mine_first.
Proof. intros [[p m] t] [[p' m'] t'] [= -> -> ->]. done. Qed.

Lemma filter_month_mine (df : list IssuanceRecord) (p : period) (m : string) :
  filter (λ e, (Month e, Mine e) = (p, m)) df = filter (λ e, (Mine e, Month e) = (m, p)) df.
Proof. apply list_filter_iff. intros e. split; intros [= <- <-]; done. Qed.

Lemma monthly_mine_wise_rows (w : world) (m : string) (p : period) (t : totals) :
  ((p, m), t) ∈ Monthly (get_reports w) ↔ ((m, p), t) ∈ Mine_wise (get_reports w).
Proof.
  rewrite get_reports_eq. simpl. rewrite !elem_of_groupby_sums, filter_month_mine.
  rewrite !list_elem_of_fmap.
  split; intros [(e & [= -> ->] & He) ->]; (split; [by exists e | done]).
Qed.

(** C9: the Monthly and the Mine-wise report hold the same aggregate rows.
    A row with month p, mine m and sums t stands in one exactly when it
    stands in the other, so exchanging the two key columns of Monthly
    gives a rearrangement of Mine-wise; every (mine, month) pair of the
    data has its row, with the sums of exactly the records of that pair,
    in both. Neither report repeats a key. The reports differ in order
    only: Monthly ascends by month, then mine; Mine-wise by mine, then
    month. *)
Theorem C9_monthly_and_mine_wise_agree (w : world) :
  (∀ (m : string) (p : period) (t : totals),
     ((p, m), t) ∈ Monthly (get_reports w) ↔ ((m, p), t) ∈ Mine_wise (get_reports w))
  ∧ mine_first <$> Monthly (get_reports w) ≡ₚ Mine_wise (get_reports w)
  ∧ (∀ e : IssuanceRecord, e ∈ data w →
       ((Month e, Mine e),
        quantity_sums (filter (λ e', Mine e' = Mine e ∧ Month e' = Month e) (data w)))
         ∈ Monthly (get_reports w)
       ∧ ((Mine e, Month e),
          quantity_sums (filter (λ e', Mine e' = Mine e ∧ Month e' = Month e) (data w)))
           ∈ Mine_wise (get_reports w))
  ∧ (∀ (m : string) (p : period) (t : totals),
       ((m, p), t) ∈ Mine_wise (get_reports w) →
       (∃ e, e ∈ data w ∧ Mine e = m ∧ Month e = p)
       ∧ t = quantity_sums (filter (λ e', Mine e' = m ∧ Month e' = p) (data w)))
  ∧ NoDup (Monthly (get_reports w)).*1
  ∧ NoDup (Mine_wise (get_reports w)).*1
  ∧ StronglySorted month_mine_le (Monthly (get_reports w)).*1
  ∧ StronglySorted mine_month_le (Mine_wise (get_reports w)).*1.
Proof.
  split; [apply monthly_mine_wise_rows|].
  split.
  { apply NoDup_Permutation.
    - apply (NoDup_fmap_2 _). rewrite get_reports_eq. apply groupby_sums_NoDup.
    - rewrite get_reports_eq. apply groupby_sums_NoDup.
    - intros [[m p] t]. rewrite <- monthly_mine_wise_rows, list_elem_of_fmap. split.
      + by intros ([[p' m'] t'] & [= -> -> ->] & Hin).
      + intros Hin. by exists ((p, m), t). }
  rewrite get_reports_eq. simpl. split; [|split].
  - intros e He.
    assert (filter (λ e', Mine e' = Mine e ∧ Month e' = Month e) (data w)
            = filter (λ e', (Mine e', Month e') = (Mine e, Month e)) (data w)) as ->.
    { apply list_filter_iff. intros e'. split.
      - intros [Hm Hp]. by rewrite Hm, Hp.
      - intros Heq. split; [exact (f_equal fst Heq) | exact (f_equal snd Heq)]. }
    rewrite !elem_of_groupby_sums, filter_month_mine, !list_elem_of_fmap.
    split; (split; [by exists e | done]).
  - intros m p t. rewrite elem_of_groupby_sums, list_elem_of_fmap.
    intros [(e & [= -> ->] & He) ->]. split; [by exists e|].
    f_equal. apply list_filter_iff. intros e'. split.
    + intros Heq. split; [exact (f_equal fst Heq) | exact (f_equal snd Heq)].
    + intros [Hm Hp]. by rewrite Hm, Hp.
  - repeat split;
      [apply groupby_sums_NoDup_keys | apply groupby_sums_NoDup_keys
      | apply groupby_sums_sorted; apply _ | apply groupby_sums_sorted; apply _].
Qed.

(** ** Sums that fit *)

Lemma quantity_sums_exact (df : list IssuanceRecord) :
  fits_int64 df → quantity_sums df = exact_totals df.
Proof.
  intros (Hpos & Hw & Hd & Hf). unfold quantity_sums, exact_totals.
  rewrite !column_sum_small; try done;
    (eapply Forall_impl; [exact Hpos|]; by intros e (? & ? & ?)).
Qed.

Lemma fits_int64_filter (P : IssuanceRecord → Prop) `{!∀ e, Decision (P e)}
    (df : list IssuanceRecord) :
  fits_int64 df → fits_int64 (filter P df).
Proof.
  intros (Hpos & Hw & Hd & Hf). split; [by apply Forall_filter|].
  assert (∀ f : IssuanceRecord → Z,
            Forall (λ e, 0 ≤ f e) df → exact_sum f df < 2 ^ 63 →
            exact_sum f (filter P df) < 2 ^ 63) as Hle.
  { intros f Hf0 Hlt. pose proof (exact_sum_filter_le f P df Hf0). lia. }
  repeat split; apply Hle; try done;
    (eapply Forall_impl; [exact Hpos|]; by intros e (? & ? & ?)).
Qed.

(** ** The rename cascade and the summary *)

Section cascade.
Context (old new : string) (Hne : new ≠ old).
Implicit Types (df : list IssuanceRecord).

Lemma rename_entries_lookup df k :
  rename_entries old new df !! k
  = (λ e, if decide (Mine e = old) then set_Mine new e else e) <$> df !! k.
Proof. unfold rename_entries. apply list_lookup_fmap. Qed.

Lemma rename_entries_none_left df :
  Forall (λ e, Mine e ≠ old) (rename_entries old new df).
Proof.
  unfold rename_entries. apply Forall_fmap, Forall_forall. intros e _. simpl.
  by case_decide.
Qed.

Lemma rename_entries_mines df m :
  m ∈ Mine <$> rename_entries old new df
  ↔ (m ≠ old ∧ m ∈ Mine <$> df) ∨ (m = new ∧ old ∈ Mine <$> df).
Proof.
  unfold rename_entries. rewrite <- list_fmap_compose. split.
  - intros Hin. apply list_elem_of_fmap in Hin as (e & -> & He). simpl.
    case_decide as Hm.
    + right. split; [done|]. apply list_elem_of_fmap. by exists e.
    + left. split; [done|]. apply list_elem_of_fmap. by exists e.
  - intros [[Hm Hin]|[-> Hin]]; apply list_elem_of_fmap in Hin as (e & Heq & He);
      apply list_elem_of_fmap; exists e; (split; [|done]); simpl.
    + rewrite decide_False by congruence. done.
    + by rewrite decide_True.
Qed.

(** The records that carry [new] afterwards are those that carried [old]
    or [new] before; a column that the renaming leaves alone has the same
    sum over the ones as over the others. *)
Lemma column_sum_renamed_new (f : IssuanceRecord → Z) df :
  (∀ n e, f (set_Mine n e) = f e) →
  column_sum f (filter (λ e, Mine e = new) (rename_entries old new df))
  = column_sum f (filter (λ e, Mine e = old ∨ Mine e = new) df).
Proof.
  intros Hf. induction df as [|e df IH]; [done|].
  unfold rename_entries in *. rewrite fmap_cons.
  destruct (decide (Mine e = old)) as [Ho|Ho].
  - rewrite (filter_cons_True (λ e, Mine e = new)) by done.
    rewrite (filter_cons_True (λ e, Mine e = old ∨ Mine e = new)) by (by left).
    simpl. by rewrite IH, Hf.
  - destruct (decide (Mine e = new)) as [Hn|Hn].
    + rewrite (filter_cons_True (λ e, Mine e = new)) by done.
      rewrite (filter_cons_True (λ e, Mine e = old ∨ Mine e = new)) by (by right).
      simpl. by rewrite IH.
    + rewrite (filter_cons_False (λ e, Mine e = new)) by done.
      rewrite (filter_cons_False (λ e, Mine e = old ∨ Mine e = new)) by (by intros [?|?]).
      apply IH.
Qed.

(** Over the integers, the sum over both mines is the sum of the two. *)
Lemma exact_sum_two_mines (f : IssuanceRecord → Z) df :
  exact_sum f (filter (λ e, Mine e = old ∨ Mine e = new) df)
  = exact_sum f (filter (λ e, Mine e = old) df)
    + exact_sum f (filter (λ e, Mine e = new) df).
Proof.
  induction df as [|e df IH]; [done|].
  destruct (decide (Mine e = old)) as [Ho|Ho].
  - rewrite (filter_cons_True (λ e, Mine e = old ∨ Mine e = new)) by (by left).
    rewrite (filter_cons_True (λ e, Mine e = old)) by done.
    rewrite (filter_cons_False (λ e, Mine e = new)) by congruence.
    simpl. rewrite IH. lia.
  - rewrite (filter_cons_False (λ e, Mine e = old)) by done.
    destruct (decide (Mine e = new)) as [Hn|Hn].
    + rewrite (filter_cons_True (λ e, Mine e = old ∨ Mine e = new)) by (by right).
      rewrite (filter_cons_True (λ e, Mine e = new)) by done.
      simpl. rewrite IH. lia.
    + rewrite (filter_cons_False (λ e, Mine e = old ∨ Mine e = new)) by (by intros [?|?]).
      rewrite (filter_cons_False (λ e, Mine e = new)) by done.
      apply IH.
Qed.

Lemma filter_renamed_other df m :
  m ≠ old → m ≠ new →
  filter (λ e, Mine e = m) (rename_entries old new df) = filter (λ e, Mine e = m) df.
Proof.
  intros Hmo Hmn. induction df as [|e df IH]; [done|].
  unfold rename_entries in *. rewrite fmap_cons.
  destruct (decide (Mine e = old)) as [Ho|Ho].
  - rewrite !filter_cons_False; [done | congruence | simpl; congruence].
  - destruct (decide (Mine e = m)) as [Hm|Hm].
    + rewrite !filter_cons_True by done. by rewrite IH.
    + rewrite !filter_cons_False by done. done.
Qed.

Lemma mine_totals_renamed_new df :
  mine_totals new (rename_entries old new df)
  = quantity_sums (filter (λ e, Mine e = old ∨ Mine e = new) df).
Proof.
  unfold mine_totals, quantity_sums. by rewrite !column_sum_renamed_new.
Qed.

(** When the merged sums fit, they are the sums of the two mines added. *)
Lemma merged_totals_add df :
  fits_int64 (filter (λ e, Mine e = old ∨ Mine e = new) df) →
  quantity_sums (filter (λ e, Mine e = old ∨ Mine e = new) df)
  = totals_add (mine_totals old df) (mine_totals new df).
Proof.
  intros Hfit.
  assert (filter (λ e, Mine e = old) df
          = filter (λ e, Mine e = old) (filter (λ e, Mine e = old ∨ Mine e = new) df)) as Ho.
  { rewrite list_filter_filter. apply list_filter_iff. intros e. tauto. }
  assert (filter (λ e, Mine e = new) df
          = filter (λ e, Mine e = new) (filter (λ e, Mine e = old ∨ Mine e = new) df)) as Hn.
  { rewrite list_filter_filter. apply list_filter_iff. intros e. tauto. }
  unfold mine_totals. rewrite (quantity_sums_exact _ Hfit).
  rewrite Ho, (quantity_sums_exact _ (fits_int64_filter _ _ Hfit)).
  rewrite Hn, (quantity_sums_exact _ (fits_int64_filter _ _ Hfit)).
  rewrite <- Ho, <- Hn. unfold exact_totals, totals_add. simpl.
  by rewrite !exact_sum_two_mines.
Qed.
End cascade.

(** The loop with exactly one edited widget is one turn of [rename_mine]. *)
Lemma rename_loop_single (inputs : nat → option string) (i : nat) (old new : string)
    (n s : nat) (w : world) :
  mines w !! i = Some old → inputs i = Some new → (∀ j, j ≠ i → inputs j = None) →
  rename_loop inputs n s w
  = if decide (s ≤ i < s + n)%nat then rename_mine i old new w else (w, []).
Proof.
  intros Hi Hinp Hrest. revert s. induction n as [|n IH]; intros s; simpl.
  { rewrite decide_False by lia. done. }
  destruct (mines w !! s) as [mine|] eqn:Hs.
  - destruct (decide (s = i)) as [->|Hsi].
    + rewrite Hi in Hs. injection Hs as <-. rewrite Hinp. simpl.
      rewrite decide_True by lia.
      destruct (rename_mine i old new w) as [w1 out1] eqn:Hren.
      rewrite rename_loop_idle; [by rewrite app_nil_r|].
      intros j mine Hj. destruct (decide (j = i)) as [->|Hji]; [|left; by apply Hrest].
      right. rewrite Hinp. unfold rename_mine in Hren.
      destruct (bool_decide (new ≠ old)) eqn:Hno; simpl in Hren.
      * destruct (bool_decide (new ≠ "")) eqn:Hne; simpl in Hren.
        -- injection Hren as <- _. simpl in Hj.
           rewrite list_lookup_insert_eq in Hj by (by eapply lookup_lt_Some).
           left. congruence.
        -- injection Hren as <- _. apply bool_decide_eq_false in Hne.
           right. f_equal. by destruct (decide (new = "")).
      * injection Hren as <- _. apply bool_decide_eq_false in Hno.
        left. rewrite Hi in Hj. injection Hj as <-. f_equal.
        by destruct (decide (new = old)).
    + rewrite (Hrest s Hsi). simpl. rewrite rename_mine_idle by auto.
      rewrite IH. simpl.
      destruct (decide (S s ≤ i < S (s + n))%nat), (decide (s ≤ i < s + S n)%nat);
        try lia; [by destruct (rename_mine i old new w) | done].
  - rewrite decide_False; [done|]. apply lookup_ge_None in Hs.
    apply lookup_lt_Some in Hi. lia.
Qed.

Lemma rename_mines_single (inputs : nat → option string) (i : nat) (old new : string)
    (w : world) :
  mines w !! i = Some old → inputs i = Some new → (∀ j, j ≠ i → inputs j = None) →
  rename_mines inputs w = rename_mine i old new w.
Proof.
  intros Hi Hinp Hrest. unfold rename_mines.
  destruct (mines w) eqn:Hm; [done|]. rewrite <- Hm in Hi |- *.
  rewrite (rename_loop_single inputs i old new) by done.
  rewrite decide_True; [done|]. apply lookup_lt_Some in Hi. lia.
Qed.

(** C2 (amended): renaming the registry entry [i], which reads [oldName],
    to a non-empty [newName] that differs from it puts [newName] at place
    [i] of the registry (the other places stay) and gives [newName] to
    every issuance record of [oldName] (the other records stay), both in
    the one step; the step is what the sidebar loop does when that one
    widget was edited. No record of [oldName] is left, so the summary by
    mine has no row for [oldName]; its row for [newName] carries the int64
    sums over the records that were of [oldName] or of [newName]; when
    the quantities of these records are non-negative and their sums stay
    below 2^63, that is the former sums of [oldName] plus the former sums
    of [newName]; the rows of the other mines are as before. *)
Theorem C2_rename_cascade (w : world) (i : nat) (oldName newName : string) :
  mines w !! i = Some oldName → newName ≠ "" → newName ≠ oldName →
  (∀ inputs : nat → option string,
     inputs i = Some newName → (∀ j, j ≠ i → inputs j = None) →
     rename_mines inputs w = rename_mine i oldName newName w)
  ∧ mines (rename_mine i oldName newName w).1 = <[i := newName]> (mines w)
  ∧ mines (rename_mine i oldName newName w).1 !! i = Some newName
  ∧ (∀ j, j ≠ i → mines (rename_mine i oldName newName w).1 !! j = mines w !! j)
  ∧ (∀ k, data (rename_mine i oldName newName w).1 !! k
          = (λ e, if decide (Mine e = oldName) then set_Mine newName e else e)
              <$> data w !! k)
  ∧ Forall (λ e, Mine e ≠ oldName) (data (rename_mine i oldName newName w).1)
  ∧ stock (rename_mine i oldName newName w).1 = stock w
  ∧ (∀ t : totals, (oldName, t) ∉ Summary (get_reports (rename_mine i oldName newName w).1))
  ∧ (∀ t : totals,
       (newName, t) ∈ Summary (get_reports (rename_mine i oldName newName w).1)
       ↔ (oldName ∈ Mine <$> data w ∨ newName ∈ Mine <$> data w)
         ∧ t = quantity_sums
                 (filter (λ e, Mine e = oldName ∨ Mine e = newName) (data w)))
  ∧ (fits_int64 (filter (λ e, Mine e = oldName ∨ Mine e = newName) (data w)) →
     ∀ t : totals,
       (newName, t) ∈ Summary (get_reports (rename_mine i oldName newName w).1)
       ↔ (oldName ∈ Mine <$> data w ∨ newName ∈ Mine <$> data w)
         ∧ t = totals_add (mine_totals oldName (data w)) (mine_totals newName (data w)))
  ∧ (∀ (m : string) (t : totals), m ≠ oldName → m ≠ newName →
       (m, t) ∈ Summary (get_reports (rename_mine i oldName newName w).1)
       ↔ (m, t) ∈ Summary (get_reports w)).
Proof.
  intros Hi Hne Hno. rewrite rename_mine_renames by done. simpl.
  split; [intros inputs ??; rewrite <- rename_mine_renames by done;
          by apply rename_mines_single|].
  split; [done|].
  split; [apply list_lookup_insert_eq; by eapply lookup_lt_Some|].
  split; [intros j Hj; by apply list_lookup_insert_ne|].
  split; [intros k; by apply rename_entries_lookup|].
  split; [by apply rename_entries_none_left|].
  split; [done|].
  rewrite !get_reports_eq. simpl.
  assert (∀ t : totals,
    (newName, t) ∈ groupby_sums String.le Mine (rename_entries oldName newName (data w))
    ↔ (oldName ∈ Mine <$> data w ∨ newName ∈ Mine <$> data w)
      ∧ t = quantity_sums
              (filter (λ e, Mine e = oldName ∨ Mine e = newName) (data w))) as Hrow.
  { intros t. rewrite elem_of_groupby_sums, rename_entries_mines by done.
    fold (mine_totals newName (rename_entries oldName newName (data w))).
    rewrite mine_totals_renamed_new by done. split.
    - intros [[[_ Hin]|[_ Hin]] ->]; auto.
    - intros [[Hin|Hin] ->]; (split; [|done]); [by right | by left]. }
  split; [|split; [|split]].
  - intros t Hin. apply elem_of_groupby_sums in Hin as [Hin _].
    apply rename_entries_mines in Hin as [[? _]|[? _]]; done.
  - exact Hrow.
  - intros Hfit t. rewrite Hrow. by rewrite (merged_totals_add oldName newName Hno).
  - intros m t Hmo Hmn. rewrite !elem_of_groupby_sums, rename_entries_mines by done.
    rewrite filter_renamed_other by done. split.
    + intros [[[_ Hin]|[-> _]] ->]; done.
    + intros [Hin ->]. split; [by left | done].
Qed.

(** C2 on the session that holds one entry of "Mine1", renamed to "MineX". *)
Lemma C2_rename_cascade_witness :
  mines logged !! 0%nat = Some "Mine1"
  ∧ mines (rename_mine 0 "Mine1" "MineX" logged).1 = <[0%nat := "MineX"]> (mines logged)
  ∧ ∀ t : totals,
      ("Mine1", t) ∉ Summary (get_reports (rename_mine 0 "Mine1" "MineX" logged).1).
Proof.
  split; [reflexivity|].
  pose proof (C2_rename_cascade logged 0 "Mine1" "MineX" eq_refl
                ltac:(discriminate) ltac:(discriminate)) as H.
  split; [apply H | apply H].
Defined.

Lemma data_run_entries (l : list IssuanceRecord) (w : world) :
  data (run_actions (SubmitEntry <$> l) w) = data w ++ l
  ∧ mines (run_actions (SubmitEntry <$> l) w) = mines w.
Proof.
  revert w. induction l as [|e l IH]; intros w; [by rewrite app_nil_r|].
  rewrite fmap_cons.
  change (run_actions (SubmitEntry e :: (SubmitEntry <$> l)) w)
    with (run_actions (SubmitEntry <$> l) (entry_form true e w).1).
  destruct (IH (entry_form true e w).1) as [-> ->].
  rewrite entry_form_submitted. simpl.
  destruct (to_csv_frame DATA_FILE
              (mkFrame issuance_columns (issuance_row <$> (data w ++ [e])))
              (with_data (data w ++ [e]) w)) as (-> & _ & -> & _).
  simpl. by rewrite <- app_assoc.
Qed.

(** C2 as stated fails once a merged total passes 2^63: after 1024 entries
    of 2^53 - 1 cartridges for "Mine1" and one such entry for "Mine2", the
    summary shows 2^63 - 1024 cartridges for "Mine1" and 2^53 - 1 for
    "Mine2"; after "Mine1" is renamed to "Mine2" the row of "Mine2" does
    not show their sum, 2^63 + 2^53 - 1025, but that sum less 2^64. *)
Lemma C2_merged_total_wraps :
  mines heavy_session !! 0%nat = Some "Mine1"
  ∧ ("Mine1", (2 ^ 63 - 1024, 0, 0)) ∈ Summary (get_reports heavy_session)
  ∧ ("Mine2", (2 ^ 53 - 1, 0, 0)) ∈ Summary (get_reports heavy_session)
  ∧ ("Mine2", (2 ^ 63 + 2 ^ 53 - 1025 - 2 ^ 64, 0, 0))
      ∈ Summary (get_reports (rename_mine 0 "Mine1" "Mine2" heavy_session).1)
  ∧ ("Mine2", (2 ^ 63 + 2 ^ 53 - 1025, 0, 0))
      ∉ Summary (get_reports (rename_mine 0 "Mine1" "Mine2" heavy_session).1).
Proof.
  unfold heavy_session.
  destruct (data_run_entries (replicate 1024 (heavy_entry "Mine1") ++ [heavy_entry "Mine2"])
              initial) as [Hdata Hmines].
  set (W := run_actions _ initial) in *. clearbody W.
  rewrite rename_mine_renames by done. rewrite !get_reports_eq.
  cbn [fst data with_mines with_data Summary]. rewrite Hdata, Hmines.
  change (data initial ++ ?l) with l. clear Hdata Hmines W.
  split; [reflexivity|].
  assert ("Mine1" ∈ Mine <$> replicate 1024 (heavy_entry "Mine1") ++ [heavy_entry "Mine2"])
    as Hin1.
  { apply list_elem_of_fmap. exists (heavy_entry "Mine1"). split; [reflexivity|].
    apply elem_of_app. left. apply elem_of_replicate. split; [reflexivity | lia]. }
  assert ("Mine2" ∈ Mine <$> replicate 1024 (heavy_entry "Mine1") ++ [heavy_entry "Mine2"])
    as Hin2.
  { apply list_elem_of_fmap. exists (heavy_entry "Mine2"). split; [reflexivity|].
    apply elem_of_app. right. left. }
  split; [|split; [|split]].
  - apply elem_of_groupby_sums. split; [exact Hin1|]. vm_compute. reflexivity.
  - apply elem_of_groupby_sums. split; [exact Hin2|]. vm_compute. reflexivity.
  - apply elem_of_groupby_sums. split.
    + apply (proj2 (rename_entries_mines "Mine1" "Mine2" _ _)).
      right. split; [reflexivity | exact Hin1].
    + vm_compute. reflexivity.
  - intros [_ Heq]%elem_of_groupby_sums. vm_compute in Heq. discriminate.
Qed.

(** * Further properties of the script *)

(** ** save_csv_data: edge cases *)

(** X1: when the records give a non-empty frame that lacks one of the
    requested columns, [df[columns]] raises, the exception is swallowed
    and nothing at all is written. *)
Theorem save_missing_column_writes_nothing (file : string) (records : list dict)
    (cols : list string) (c : string) (w : world) :
  records ≠ [] → frame_columns records ≠ [] →
  c ∈ cols → c ∉ frame_columns records →
  save_csv_data file records cols w = w.
Proof.
  intros Hrec Hcols Hc Hmiss. unfold save_csv_data.
  assert (empty (from_records records) = false) as ->.
  { unfold empty, from_records. simpl.
    rewrite !bool_decide_eq_false_2; [done| |done]. by destruct records. }
  unfold getitem. simpl columns. rewrite decide_False; [done|].
  intros Hsub. by apply Hmiss, Hsub.
Qed.

(** X1 for a stock record saved under the issuance header. *)
Lemma save_missing_column_writes_nothing_witness :
  save_csv_data DATA_FILE [stock_dict sample_stock] issuance_columns initial = initial.
Proof.
  apply (save_missing_column_writes_nothing DATA_FILE [stock_dict sample_stock]
           issuance_columns "Mine" initial).
  - discriminate.
  - discriminate.
  - right. left.
  - intros Hin. simpl in Hin.
    repeat (apply elem_of_cons in Hin as [Hin|Hin]; [discriminate|]).
    by apply elem_of_nil in Hin.
Defined.

(** Saving touches nothing but the one file. *)
Lemma save_csv_data_frame (file : string) (records : list dict) (cols : list string)
    (w : world) :
  data (save_csv_data file records cols w) = data w
  ∧ stock (save_csv_data file records cols w) = stock w
  ∧ mines (save_csv_data file records cols w) = mines w
  ∧ disk_ok (save_csv_data file records cols w) = disk_ok w
  ∧ (∀ other, other ≠ file →
       disk (save_csv_data file records cols w) !! other = disk w !! other).
Proof.
  unfold save_csv_data.
  destruct (if empty (from_records records) then Some (from_records records)
            else getitem cols (from_records records)) as [df|]; [|done].
  destruct (to_csv_frame file df w) as (? & ? & ? & ? & _ & ?). done.
Qed.

(** ** The rename loop as a whole *)

Lemma rename_mine_mines_lookup (i j : nat) (mine : string) (input : option string)
    (w : world) :
  mines w !! i = Some mine →
  mines (rename_mine i mine (default mine input) w).1 !! j
  = if decide (j = i) then Some (renamed_to mine input) else mines w !! j.
Proof.
  intros Hi. unfold rename_mine, renamed_to. destruct input as [new_name|]; simpl.
  - destruct (bool_decide (new_name ≠ mine) && bool_decide (new_name ≠ "")); simpl.
    + case_decide as Hj.
      * subst j. apply list_lookup_insert_eq. by eapply lookup_lt_Some.
      * by apply list_lookup_insert_ne.
    + case_decide; by subst.
  - rewrite (bool_decide_eq_false_2 (mine ≠ mine)) by (by intros ?). simpl.
    case_decide; by subst.
Qed.

Lemma rename_mine_frame (i : nat) (mine new_name : string) (w : world) :
  stock (rename_mine i mine new_name w).1 = stock w
  ∧ disk_ok (rename_mine i mine new_name w).1 = disk_ok w
  ∧ length (data (rename_mine i mine new_name w).1) = length (data w)
  ∧ length (mines (rename_mine i mine new_name w).1) = length (mines w).
Proof.
  unfold rename_mine. destruct (_ && _); simpl; [|done].
  unfold rename_entries. by rewrite length_fmap, length_insert.
Qed.

Lemma rename_loop_mines (inputs : nat → option string) (n s : nat) (w : world) (j : nat) :
  mines (rename_loop inputs n s w).1 !! j
  = if decide (s ≤ j < s + n)%nat
    then (λ mine, renamed_to mine (inputs j)) <$> mines w !! j
    else mines w !! j.
Proof.
  revert s w. induction n as [|n IH]; intros s w; simpl.
  { by rewrite decide_False by lia. }
  destruct (mines w !! s) as [mine|] eqn:Hs; simpl.
  - pose proof (rename_mine_mines_lookup s j mine (inputs s) w Hs) as Hstep.
    destruct (rename_mine s mine (default mine (inputs s)) w) as [w1 out1].
    specialize (IH (S s) w1).
    destruct (rename_loop inputs n (S s) w1) as [w2 out2]. simpl in *.
    rewrite IH, Hstep. destruct (decide (j = s)) as [->|Hjs].
    + rewrite decide_False by lia. rewrite decide_True by lia. by rewrite Hs.
    + repeat case_decide; try lia; done.
  - case_decide; [|done]. apply lookup_ge_None in Hs.
    rewrite (proj2 (lookup_ge_None (mines w) j)) by lia. done.
Qed.

Lemma rename_loop_frame (inputs : nat → option string) (n s : nat) (w : world) :
  stock (rename_loop inputs n s w).1 = stock w
  ∧ disk (rename_loop inputs n s w).1 = disk w
  ∧ length (data (rename_loop inputs n s w).1) = length (data w).
Proof.
  revert s w. induction n as [|n IH]; intros s w; simpl; [done|].
  destruct (mines w !! s) as [mine|]; [|done].
  pose proof (rename_mine_frame s mine (default mine (inputs s)) w) as (Hs & _ & Hd & _).
  pose proof (rename_mine_disk s mine (default mine (inputs s)) w) as Hk.
  destruct (rename_mine s mine (default mine (inputs s)) w) as [w1 out1].
  specialize (IH (S s) w1). destruct (rename_loop inputs n (S s) w1) as [w2 out2].
  simpl in *. destruct IH as (-> & -> & ->). done.
Qed.

(** X3: one pass of the sidebar loop renames place by place: the registry
    afterwards holds, at every place, the text of that place's widget if
    it is non-empty and differs from the name there, and the old name
    otherwise. The loop never adds or drops a mine or a record, and it
    touches neither the stock list nor any file. *)
Theorem rename_mines_registry (inputs : nat → option string) (w : world) :
  mines (rename_mines inputs w).1
  = imap (λ j mine, renamed_to mine (inputs j)) (mines w)
  ∧ length (data (rename_mines inputs w).1) = length (data w)
  ∧ stock (rename_mines inputs w).1 = stock w
  ∧ disk (rename_mines inputs w).1 = disk w.
Proof.
  unfold rename_mines. destruct (mines w) as [|m ms] eqn:Hm; [done|].
  rewrite <- Hm.
  split; [|pose proof (rename_loop_frame inputs (length (mines w)) 0 w) as (?&?&?); done].
  apply list_eq. intros j. rewrite rename_loop_mines, list_lookup_imap.
  case_decide as Hj; [done|].
  rewrite (proj2 (lookup_ge_None (mines w) j)) by lia. done.
Qed.

(** ** Whole sessions: what no action ever does *)

Lemma add_mine_form_frame (btn : bool) (new_mine : string) (w : world) :
  data (add_mine_form btn new_mine w).1 = data w
  ∧ stock (add_mine_form btn new_mine w).1 = stock w
  ∧ disk_ok (add_mine_form btn new_mine w).1 = disk_ok w
  ∧ (mines (add_mine_form btn new_mine w).1 = mines w
     ∨ mines (add_mine_form btn new_mine w).1 = mines w ++ [new_mine]).
Proof.
  unfold add_mine_form. destruct (_ && _); [|by auto].
  destruct (bool_decide (new_mine ∉ mines w)); simpl; auto.
Qed.

Lemma add_stock_form_frame (btn : bool) (r : StockRecord) (w : world) :
  data (add_stock_form btn r w).1 = data w
  ∧ mines (add_stock_form btn r w).1 = mines w
  ∧ disk_ok (add_stock_form btn r w).1 = disk_ok w
  ∧ disk (add_stock_form btn r w).1 !! DATA_FILE = disk w !! DATA_FILE
  ∧ (stock (add_stock_form btn r w).1 = stock w
     ∨ stock (add_stock_form btn r w).1 = stock w ++ [r]).
Proof.
  unfold add_stock_form. destruct (_ && _ && _).
  - simpl. pose proof (save_csv_data_frame STOCK_FILE
                         (stock_dict <$> (stock w ++ [r])) stock_columns
                         (with_stock (stock w ++ [r]) w)) as (? & ? & ? & ? & Hother).
    repeat split; try done; [by apply Hother | right; done].
  - destruct btn; simpl; auto 10.
Qed.

Lemma entry_form_frame (e : IssuanceRecord) (w : world) :
  data (entry_form true e w).1 = data w ++ [e]
  ∧ stock (entry_form true e w).1 = stock w
  ∧ mines (entry_form true e w).1 = mines w
  ∧ disk_ok (entry_form true e w).1 = disk_ok w
  ∧ disk (entry_form true e w).1 !! STOCK_FILE = disk w !! STOCK_FILE.
Proof.
  rewrite entry_form_submitted. simpl.
  destruct (to_csv_frame DATA_FILE
              (mkFrame issuance_columns (issuance_row <$> (data w ++ [e])))
              (with_data (data w ++ [e]) w)) as (-> & -> & -> & -> & _ & Hother).
  repeat split; try done. by apply Hother.
Qed.

Lemma set_Mine_rename_entries (mine new_name : string) (df : list IssuanceRecord) :
  set_Mine "" <$> rename_entries mine new_name df = set_Mine "" <$> df.
Proof.
  unfold rename_entries. rewrite <- list_fmap_compose. apply list_fmap_ext.
  intros _ e _. simpl. by case_decide.
Qed.

Lemma run_action_never_loses (a : action) (w : world) :
  stock w `prefix_of` stock (run_action a w)
  ∧ (set_Mine "" <$> data w) `prefix_of` (set_Mine "" <$> data (run_action a w))
  ∧ (length (mines w) ≤ length (mines (run_action a w)))%nat.
Proof.
  destruct a as [[new_mine|i new_name]|e|r]; cbn [run_action run_mine_op].
  - destruct (add_mine_form_frame true new_mine w) as (-> & -> & _ & [-> | ->]);
      rewrite ?length_app; repeat split; try done; lia.
  - destruct (mines w !! i) as [mine|]; [|done].
    unfold rename_mine. destruct (_ && _); simpl; [|done].
    rewrite set_Mine_rename_entries, length_insert. done.
  - destruct (entry_form_frame e w) as (-> & -> & -> & _).
    rewrite fmap_app. repeat split; try done. by apply prefix_app_r.
  - destruct (add_stock_form_frame true r w) as (-> & -> & _ & _ & [-> | ->]);
      repeat split; try done. by apply prefix_app_r.
Qed.

(** X4: whatever the user does, in whatever order, nothing is ever
    deleted, reordered or altered except a record's mine name: the stock
    list only grows at its end, the issuance list only grows at its end
    and its old records keep every field but Mine, and the registry never
    gets shorter. *)
Theorem session_never_loses_records (l : list action) (w : world) :
  stock w `prefix_of` stock (run_actions l w)
  ∧ (set_Mine "" <$> data w) `prefix_of` (set_Mine "" <$> data (run_actions l w))
  ∧ (length (mines w) ≤ length (mines (run_actions l w)))%nat.
Proof.
  revert w. induction l as [|a l IH]; intros w; simpl; [done|].
  destruct (run_action_never_loses a w) as (Hs & Hd & Hm).
  destruct (IH (run_action a w)) as (Hs' & Hd' & Hm').
  repeat split; [by etrans | by etrans | lia].
Qed.

(** ** Whole sessions: records and registry stay consistent *)

Lemma rename_mine_registered (i : nat) (mine new_name : string) (w : world) :
  mines w !! i = Some mine → records_registered w →
  records_registered (rename_mine i mine new_name w).1.
Proof.
  intros Hi Hreg. unfold rename_mine. destruct (_ && _); simpl; [|done].
  unfold records_registered, rename_entries in *. simpl.
  apply Forall_fmap. eapply Forall_impl; [exact Hreg|]. intros e He. simpl.
  assert (i < length (mines w))%nat as Hlt by (by eapply lookup_lt_Some).
  case_decide as Hm.
  - simpl. apply list_elem_of_lookup. exists i. by apply list_lookup_insert_eq.
  - apply list_elem_of_lookup in He as [j Hj]. apply list_elem_of_lookup. exists j.
    rewrite list_lookup_insert_ne; [done|]. intros ->. congruence.
Qed.

Lemma run_action_registered (a : action) (w : world) :
  records_registered w →
  match a with SubmitEntry e => Mine e ∈ mines w | _ => True end →
  records_registered (run_action a w).
Proof.
  intros Hreg Ha. destruct a as [[new_mine|i new_name]|e|r]; cbn [run_action run_mine_op].
  - unfold records_registered.
    destruct (add_mine_form_frame true new_mine w) as (-> & _ & _ & [-> | ->]); [done|].
    eapply Forall_impl; [exact Hreg|]. intros e He. apply elem_of_app. by left.
  - destruct (mines w !! i) as [mine|] eqn:Hi; [|done]. by apply rename_mine_registered.
  - unfold records_registered. destruct (entry_form_frame e w) as (-> & _ & -> & _).
    apply Forall_app. split; [done | by constructor].
  - unfold records_registered.
    by destruct (add_stock_form_frame true r w) as (-> & -> & _).
Qed.

(** X5: if every issuance record names a registered mine, it stays so
    through any sequence of actions whose entries come out of the mine
    select box: adding a mine, renaming one (the cascade takes the records
    along) and submitting entries or stock never leave a record with a
    mine the registry does not list. *)
Theorem session_keeps_records_registered (l : list action) (w : world) :
  records_registered w → from_selectbox l w → records_registered (run_actions l w).
Proof.
  revert w. induction l as [|a l IH]; intros w Hreg Hsel; simpl; [done|].
  destruct Hsel as [Ha Hl]. apply IH; [|done]. by apply run_action_registered.
Qed.

(** X5 on a session that adds "Mine4", logs an entry for it and renames it. *)
Lemma session_keeps_records_registered_witness :
  records_registered
    (run_actions
       [Sidebar (AddMine "Mine4");
        SubmitEntry (mkIssuance (mkdate 2024 3 5) "Mine4" "Asha" "Bilal" "" 5 2 10);
        Sidebar (RenameMine 3 "Pit4")] initial).
Proof.
  apply (session_keeps_records_registered
           [Sidebar (AddMine "Mine4");
            SubmitEntry (mkIssuance (mkdate 2024 3 5) "Mine4" "Asha" "Bilal" "" 5 2 10);
            Sidebar (RenameMine 3 "Pit4")] initial).
  - constructor.
  - simpl. repeat split. do 3 right. left.
Defined.

(** ** Whole sessions: the files *)

Lemma run_action_disk_ok (a : action) (w : world) :
  disk_ok (run_action a w) = disk_ok w.
Proof.
  destruct a as [[new_mine|i new_name]|e|r]; cbn [run_action run_mine_op].
  - apply add_mine_form_frame.
  - destruct (mines w !! i); [apply rename_mine_frame | done].
  - apply entry_form_frame.
  - apply add_stock_form_frame.
Qed.

Lemma run_action_stock_file (a : action) (w : world) :
  disk_ok w = true →
  stock w = [] ∨ stock_file_current w →
  stock (run_action a w) = [] ∨ stock_file_current (run_action a w).
Proof.
  intros Hok Hinv. unfold stock_file_current in *.
  destruct a as [[new_mine|i new_name]|e|r]; cbn [run_action run_mine_op].
  - rewrite add_mine_form_disk. by destruct (add_mine_form_frame true new_mine w) as (_ & -> & _).
  - destruct (mines w !! i) as [mine|]; [|done].
    rewrite rename_mine_disk. by destruct (rename_mine_frame i mine new_name w) as (-> & _).
  - by destruct (entry_form_frame e w) as (_ & -> & _ & _ & ->).
  - destruct (decide (Serial_No r ≠ "" ∧ 0 < Quantity r)) as [[Hs Hq]|Hbad].
    + right. rewrite add_stock_form_accepted by done. simpl.
      destruct (to_csv_frame STOCK_FILE
                  (mkFrame stock_columns (stock_row <$> (stock w ++ [r])))
                  (with_stock (stock w ++ [r]) w)) as (_ & -> & _).
      by apply to_csv_ok.
    + by rewrite add_stock_form_rejected.
Qed.

(** X6: on a disk that takes writes, the stock file is never behind: once
    it matches the stock list (or the list is empty), it matches it after
    every further sequence of actions, renames included. *)
Theorem session_keeps_stock_file_current (l : list action) (w : world) :
  disk_ok w = true →
  stock w = [] ∨ stock_file_current w →
  stock (run_actions l w) = [] ∨ stock_file_current (run_actions l w).
Proof.
  revert w. induction l as [|a l IH]; intros w Hok Hinv; simpl; [done|].
  apply IH; [by rewrite run_action_disk_ok | by apply run_action_stock_file].
Qed.

(** X6 on a fresh session that takes in stock, then renames a mine. *)
Lemma session_keeps_stock_file_current_witness :
  stock (run_actions [SubmitStock sample_stock; Sidebar (RenameMine 0 "MineX")] initial) = []
  ∨ stock_file_current
      (run_actions [SubmitStock sample_stock; Sidebar (RenameMine 0 "MineX")] initial).
Proof.
  apply (session_keeps_stock_file_current
           [SubmitStock sample_stock; Sidebar (RenameMine 0 "MineX")] initial).
  - reflexivity.
  - left. reflexivity.
Defined.

Lemma run_action_issuance_file (a : action) (w : world) :
  is_rename a = false → disk_ok w = true →
  data w = [] ∨ issuance_file_current w →
  data (run_action a w) = [] ∨ issuance_file_current (run_action a w).
Proof.
  intros Hren Hok Hinv. unfold issuance_file_current in *.
  destruct a as [[new_mine|i new_name]|e|r]; cbn [run_action run_mine_op]; [|done| |].
  - rewrite add_mine_form_disk. by destruct (add_mine_form_frame true new_mine w) as (-> & _).
  - right. rewrite entry_form_submitted. simpl.
    destruct (to_csv_frame DATA_FILE
                (mkFrame issuance_columns (issuance_row <$> (data w ++ [e])))
                (with_data (data w ++ [e]) w)) as (-> & _).
    by apply to_csv_ok.
  - by destruct (add_stock_form_frame true r w) as (-> & _ & _ & -> & _).
Qed.

(** X7: on a disk that takes writes, and as long as no mine is renamed,
    the issuance file is never behind either: adding mines, submitting
    entries and taking in stock keep it equal to the issuance list. *)
Theorem session_without_rename_keeps_issuance_file (l : list action) (w : world) :
  forallb (λ a, negb (is_rename a)) l = true → disk_ok w = true →
  data w = [] ∨ issuance_file_current w →
  data (run_actions l w) = [] ∨ issuance_file_current (run_actions l w).
Proof.
  revert w. induction l as [|a l IH]; intros w Hl Hok Hinv; simpl; [done|].
  simpl in Hl. apply andb_true_iff in Hl as [Ha Hl]. apply negb_true_iff in Ha.
  apply IH; [done | by rewrite run_action_disk_ok | by apply run_action_issuance_file].
Qed.

(** X7 on a fresh session: a new mine, an entry, a stock receipt. *)
Lemma session_without_rename_keeps_issuance_file_witness :
  data (run_actions [Sidebar (AddMine "Mine4"); SubmitEntry sample_entry;
                     SubmitStock sample_stock] initial) = []
  ∨ issuance_file_current
      (run_actions [Sidebar (AddMine "Mine4"); SubmitEntry sample_entry;
                    SubmitStock sample_stock] initial).
Proof.
  apply (session_without_rename_keeps_issuance_file
           [Sidebar (AddMine "Mine4"); SubmitEntry sample_entry; SubmitStock sample_stock]
           initial).
  - reflexivity.
  - reflexivity.
  - left. reflexivity.
Defined.

(** ** Balance, cards and dashboards *)

Lemma column_sum_rename_entries (f : IssuanceRecord → Z) (mine new_name : string)
    (df : list IssuanceRecord) :
  (∀ n e, f (set_Mine n e) = f e) →
  column_sum f (rename_entries mine new_name df) = column_sum f df.
Proof.
  intros Hf. unfold rename_entries. induction df as [|e df IH]; [done|].
  rewrite fmap_cons. simpl. rewrite IH. case_decide; by rewrite ?Hf.
Qed.

Lemma quantity_sums_rename_entries (mine new_name : string) (df : list IssuanceRecord) :
  quantity_sums (rename_entries mine new_name df) = quantity_sums df.
Proof. unfold quantity_sums. by rewrite !column_sum_rename_entries. Qed.

Lemma get_stock_balance_ext (w w' : world) :
  stock w' = stock w →
  (∀ t, column_sum (issued_column t) (data w') = column_sum (issued_column t) (data w)) →
  (data w' = [] ↔ data w = []) →
  get_stock_balance w' = get_stock_balance w.
Proof.
  intros Hs Hd He. unfold get_stock_balance. rewrite Hs. f_equal.
  destruct (data w') as [|e' d'] eqn:Hw', (data w) as [|e d] eqn:Hw; try done.
  - by pose proof (proj1 He eq_refl).
  - by pose proof (proj2 He eq_refl).
  - unfold all_explosives. rewrite !fmap_cons, fmap_nil. cbv beta. by rewrite !Hd.
Qed.

(** X8: the sidebar never moves a quantity: adding a mine or renaming one
    (with its cascade over the records) leaves the stock balance of every
    type, the issuance totals and the stock totals exactly as they
    were. *)
Theorem sidebar_keeps_quantities (op : mine_op) (w : world) :
  get_stock_balance (run_mine_op op w) = get_stock_balance w
  ∧ stock_balance_cards (run_mine_op op w) = stock_balance_cards w
  ∧ issuance_dashboard (run_mine_op op w) = issuance_dashboard w
  ∧ stock_dashboard (run_mine_op op w) = stock_dashboard w.
Proof.
  assert (get_stock_balance (run_mine_op op w) = get_stock_balance w
          ∧ issuance_dashboard (run_mine_op op w) = issuance_dashboard w
          ∧ stock (run_mine_op op w) = stock w) as (Hb & Hi & Hs).
  { destruct op as [new_mine|i new_name]; cbn [run_mine_op].
    - destruct (add_mine_form_frame true new_mine w) as (Hd & Hs & _).
      unfold issuance_dashboard. rewrite Hd.
      repeat split; [|done]. apply get_stock_balance_ext; by rewrite ?Hd.
    - destruct (mines w !! i) as [mine|]; [|done].
      unfold rename_mine. destruct (_ && _); [|done]. simpl.
      repeat split.
      + apply get_stock_balance_ext; simpl; [done| |].
        * intros t. apply column_sum_rename_entries. by destruct t.
        * unfold rename_entries. by destruct (data w).
      + unfold issuance_dashboard. simpl. rewrite quantity_sums_rename_entries.
        unfold rename_entries. by destruct (data w). }
  unfold stock_balance_cards, stock_dashboard. by rewrite Hb, Hs.
Qed.

(** ** Reports *)

Lemma groupby_sums_nil {K} `{!EqDecision K} (R : relation K) `{!RelDecision R}
    (key : IssuanceRecord → K) (df : list IssuanceRecord) :
  groupby_sums R key df = [] ↔ df = [].
Proof.
  split; [|by intros ->].
  destruct df as [|e df]; [done|]. intros Hnil.
  assert ((key e, quantity_sums (filter (λ e', key e' = key e) (e :: df)))
            ∈ groupby_sums R key (e :: df)) as Hin.
  { apply elem_of_groupby_sums. split; [left | done]. }
  rewrite Hnil in Hin. by apply elem_of_nil in Hin.
Qed.

(** X10: the reports tab answers "No data available for this report."
    exactly when no issuance record exists, whichever of the four reports
    is chosen; with at least one record every report has rows. *)
Theorem reports_tab_no_data (rt : report_type) (w : world) :
  reports_tab rt w = NoData ↔ data w = [].
Proof.
  unfold reports_tab. rewrite get_reports_eq. simpl.
  destruct rt.
  - rewrite <- (groupby_sums_nil String.le Mine). by destruct (groupby_sums _ _ _).
  - rewrite <- (groupby_sums_nil month_mine_le (λ e, (Month e, Mine e))).
    by destruct (groupby_sums _ _ _).
  - rewrite <- (groupby_sums_nil mine_month_le (λ e, (Mine e, Month e))).
    by destruct (groupby_sums _ _ _).
  - by destruct (data w).
Qed.

(** X11: the summary report has exactly one row for every mine that occurs
    in the records, carrying the three sums over that mine's records, and
    no other row; the rows stand in ascending order of the mine name. *)
Theorem summary_one_row_per_mine (w : world) :
  (∀ (m : string) (t : totals),
     (m, t) ∈ Summary (get_reports w)
     ↔ m ∈ Mine <$> data w ∧ t = mine_totals m (data w))
  ∧ NoDup (Summary (get_reports w)).*1
  ∧ StronglySorted String.le (Summary (get_reports w)).*1.
Proof.
  rewrite get_reports_eq. simpl. split; [|split].
  - intros m t. apply elem_of_groupby_sums.
  - apply groupby_sums_NoDup_keys.
  - apply groupby_sums_sorted; apply _.
Qed.

(** ** Group sums add up *)

Lemma filter_ext_elem_of {A} (P Q : A → Prop) `{!∀ x, Decision (P x)} `{!∀ x, Decision (Q x)}
    (l : list A) :
  (∀ x, x ∈ l → P x ↔ Q x) → filter P l = filter Q l.
Proof.
  induction l as [|x l IH]; intros Hext; [done|].
  assert (filter P l = filter Q l) as Hl.
  { apply IH. intros y Hy. apply Hext. by right. }
  destruct (decide (P x)) as [HP|HP].
  - rewrite !filter_cons_True; [by rewrite Hl | by apply Hext; [left|] | done].
  - rewrite !filter_cons_False; [done | | done]. intros HQ. apply HP, Hext; [left | done].
Qed.

Lemma filter_all {A} (P : A → Prop) `{!∀ x, Decision (P x)} (l : list A) :
  (∀ x, x ∈ l → P x) → filter P l = l.
Proof.
  induction l as [|x l IH]; intros HP; [done|].
  rewrite filter_cons_True by (apply HP; left). f_equal. apply IH.
  intros y Hy. apply HP. by right.
Qed.

Section partition.
Context {K : Type} `{!EqDecision K} (key : IssuanceRecord → K).
Implicit Types (df : list IssuanceRecord) (ks : list K).

Lemma exact_sum_split_key (f : IssuanceRecord → Z) k ks df :
  k ∉ ks →
  exact_sum f (filter (λ e, key e ∈ k :: ks) df)
  = exact_sum f (filter (λ e, key e = k) df) + exact_sum f (filter (λ e, key e ∈ ks) df).
Proof.
  intros Hk. induction df as [|e df IH]; [done|].
  destruct (decide (key e = k)) as [Heq|Hne].
  - rewrite (filter_cons_True (λ e, key e ∈ k :: ks)) by (rewrite Heq; left).
    rewrite (filter_cons_True (λ e, key e = k)) by done.
    rewrite (filter_cons_False (λ e, key e ∈ ks)) by (by rewrite Heq).
    simpl. rewrite IH. lia.
  - rewrite (filter_cons_False (λ e, key e = k)) by done.
    destruct (decide (key e ∈ ks)) as [Hin|Hnin].
    + rewrite (filter_cons_True (λ e, key e ∈ k :: ks)) by (by right).
      rewrite (filter_cons_True (λ e, key e ∈ ks)) by done.
      simpl. rewrite IH. lia.
    + rewrite (filter_cons_False (λ e, key e ∈ k :: ks)).
      * by rewrite (filter_cons_False (λ e, key e ∈ ks)).
      * intros [?|?]%elem_of_cons; done.
Qed.

Lemma exact_totals_groups ks df :
  NoDup ks →
  totals_sum ((λ k, exact_totals (filter (λ e, key e = k) df)) <$> ks)
  = exact_totals (filter (λ e, key e ∈ ks) df).
Proof.
  induction 1 as [|k ks Hk _ IH].
  - rewrite (filter_ext_elem_of _ (λ _, False) df).
    + by induction df.
    + intros e _. split; [by intros ?%elem_of_nil | done].
  - rewrite fmap_cons. change (totals_sum (?x :: ?l)) with (totals_add x (totals_sum l)).
    rewrite IH. unfold totals_add, exact_totals. simpl.
    by rewrite !(exact_sum_split_key _ k ks df Hk).
Qed.

(** When the sums of the frame fit, the int64 sums of the groups of a
    list of distinct keys add up to the int64 sums over these groups. *)
Lemma totals_sum_groups ks df :
  fits_int64 df → NoDup ks →
  totals_sum ((λ k, quantity_sums (filter (λ e, key e = k) df)) <$> ks)
  = quantity_sums (filter (λ e, key e ∈ ks) df).
Proof.
  intros Hfit Hks.
  rewrite (quantity_sums_exact _ (fits_int64_filter _ _ Hfit)).
  rewrite <- (exact_totals_groups ks df Hks). f_equal.
  apply list_fmap_ext. intros _ k _.
  apply (quantity_sums_exact _ (fits_int64_filter _ _ Hfit)).
Qed.

Lemma groupby_sums_values (R : relation K) `{!RelDecision R} df :
  (groupby_sums R key df).*2
  = (λ k, quantity_sums (filter (λ e, key e = k) df))
      <$> merge_sort R (remove_dups (key <$> df)).
Proof. unfold groupby_sums. by rewrite <- list_fmap_compose. Qed.

(** The sums of all groups add up to the sums of the whole frame. *)
Lemma groupby_sums_total (R : relation K) `{!RelDecision R} df :
  fits_int64 df → totals_sum (groupby_sums R key df).*2 = quantity_sums df.
Proof.
  intros Hfit. rewrite groupby_sums_values, totals_sum_groups; [|done|].
  - f_equal. apply filter_all. intros e He.
    rewrite merge_sort_Permutation, elem_of_remove_dups. apply list_elem_of_fmap. by exists e.
  - rewrite merge_sort_Permutation. apply NoDup_remove_dups.
Qed.
End partition.

(** X12: as long as the quantities are non-negative and the three sums
    over the whole issuance list stay below 2^63, the rows of each of the
    three grouped reports add up, column by column, to the totals of the
    whole issuance list, which are the three figures of the issuance
    dashboard. *)
Theorem report_rows_add_up_to_dashboard (w : world) :
  fits_int64 (data w) →
  totals_sum (Summary (get_reports w)).*2 = quantity_sums (data w)
  ∧ totals_sum (Monthly (get_reports w)).*2 = quantity_sums (data w)
  ∧ totals_sum (Mine_wise (get_reports w)).*2 = quantity_sums (data w)
  ∧ (data w ≠ [] → issuance_dashboard w = Some (totals_sum (Summary (get_reports w)).*2)).
Proof.
  intros Hfit. rewrite get_reports_eq. simpl. rewrite !groupby_sums_total by done.
  repeat split; try done. unfold issuance_dashboard. by destruct (data w).
Qed.

(** X12 on the session that holds one entry of "Mine1". *)
Lemma report_rows_add_up_to_dashboard_witness :
  totals_sum (Summary (get_reports logged)).*2 = quantity_sums (data logged).
Proof.
  apply (report_rows_add_up_to_dashboard logged).
  split; [repeat constructor; done | by vm_compute].
Defined.

(** X13: as long as the quantities are non-negative and the three sums
    over the whole issuance list stay below 2^63, the summary row of a
    mine is the sum of that mine's rows in the monthly report: for every
    mine, adding up its monthly rows gives the three sums over all its
    records. *)
Theorem summary_is_sum_of_monthly_rows (w : world) (m : string) :
  fits_int64 (data w) →
  totals_sum (filter (λ row, row.1.2 = m) (Monthly (get_reports w))).*2
  = mine_totals m (data w).
Proof.
  intros Hfit. rewrite get_reports_eq. simpl. unfold groupby_sums, mine_totals.
  set (ks := merge_sort month_mine_le (remove_dups ((λ e, (Month e, Mine e)) <$> data w))).
  assert (filter (λ row : period * string * totals, row.1.2 = m)
            ((λ k, (k, quantity_sums (filter (λ e, (Month e, Mine e) = k) (data w)))) <$> ks)
          = (λ k, (k, quantity_sums (filter (λ e, (Month e, Mine e) = k) (data w))))
              <$> filter (λ k, k.2 = m) ks) as ->.
  { induction ks as [|k ks IH]; [done|]. rewrite fmap_cons.
    destruct (decide (k.2 = m)) as [Hk|Hk].
    - rewrite !filter_cons_True by done. by rewrite fmap_cons, IH.
    - rewrite !filter_cons_False by done. done. }
  rewrite <- list_fmap_compose.
  etrans; [apply (totals_sum_groups (λ e, (Month e, Mine e)) (filter (λ k, k.2 = m) ks));
           [done|]|].
  - apply NoDup_filter. unfold ks. rewrite merge_sort_Permutation. apply NoDup_remove_dups.
  - f_equal. apply filter_ext_elem_of. intros e He.
    rewrite list_elem_of_filter. unfold ks.
    rewrite merge_sort_Permutation, elem_of_remove_dups. simpl. split; [by intros [? _]|].
    intros Hm. split; [done|]. apply list_elem_of_fmap. by exists e.
Qed.

(** X13 on the session that holds one entry of "Mine1". *)
Lemma summary_is_sum_of_monthly_rows_witness :
  totals_sum (filter (λ row, row.1.2 = "Mine1") (Monthly (get_reports logged))).*2
  = mine_totals "Mine1" (data logged).
Proof.
  apply (summary_is_sum_of_monthly_rows logged "Mine1").
  split; [repeat constructor; done | by vm_compute].
Defined.

(** ** The filtered dashboard *)

Global Instance date_le_refl : Reflexive date_le.
Proof. intros a. unfold date_le. reflexivity. Qed.
Global Instance date_le_trans : Transitive date_le.
Proof. intros a b c. unfold date_le. apply transitivity. Qed.
Global Instance date_le_total : Total date_le.
Proof. intros a b. unfold date_le. apply total, _. Qed.

Lemma fold_min_le (d0 : dtdate) (ds : list dtdate) :
  Forall (date_le (foldr (λ d acc, if decide (date_le d acc) then d else acc) d0 ds))
         (d0 :: ds).
Proof.
  induction ds as [|d ds IH]; simpl; [by repeat constructor|].
  apply Forall_cons in IH as [H0 Hds]. case_decide as Hd.
  - constructor; [by etrans|]. constructor; [done|].
    eapply Forall_impl; [exact Hds|]. intros x Hx. simpl in Hx. by etrans.
  - constructor; [done|]. constructor; [|done].
    by destruct (total date_le d
                   (foldr (λ d acc, if decide (date_le d acc) then d else acc) d0 ds)).
Qed.

Lemma fold_max_ge (d0 : dtdate) (ds : list dtdate) :
  Forall (λ d, date_le d (foldr (λ d acc, if decide (date_le acc d) then d else acc) d0 ds))
         (d0 :: ds).
Proof.
  induction ds as [|d ds IH]; simpl; [by repeat constructor|].
  apply Forall_cons in IH as [H0 Hds]. case_decide as Hd.
  - constructor; [by etrans|]. constructor; [done|].
    eapply Forall_impl; [exact Hds|]. intros x Hx. simpl in Hx. by etrans.
  - constructor; [done|]. constructor; [|done].
    by destruct (total date_le d
                   (foldr (λ d acc, if decide (date_le acc d) then d else acc) d0 ds)).
Qed.

Lemma default_date_range_covers (df : list IssuanceRecord) (range : dtdate * dtdate) :
  default_date_range df = Some range →
  ∀ e, e ∈ df → date_le range.1 (Date e) ∧ date_le (Date e) range.2.
Proof.
  destruct df as [|e0 rest]; [done|]. intros [= <-] e He. simpl.
  pose proof (fold_min_le (Date e0) (Date <$> rest)) as Hmin.
  pose proof (fold_max_ge (Date e0) (Date <$> rest)) as Hmax.
  rewrite Forall_forall in Hmin, Hmax.
  assert (Date e ∈ Date e0 :: (Date <$> rest)) as Hin.
  { change (Date e ∈ Date <$> (e0 :: rest)). apply list_elem_of_fmap. by exists e. }
  split; [by apply Hmin | by apply (Hmax _ Hin)].
Qed.



(** X15: with the widgets at their defaults (all registered mines, first
    to last date of the records) the date range excludes nothing: the
    dashboard keeps exactly the records of registered mines, so a record
    whose mine the registry does not list is left out of it; when every
    record names a registered mine, the dashboard covers the whole list
    and its chart and monthly summary are the Summary and Monthly
    reports. *)
Theorem default_filters_show_registered_records (w : world) (range : dtdate * dtdate) :
  default_date_range (data w) = Some range →
  apply_filters (mines w) range (data w) = filter (λ e, Mine e ∈ mines w) (data w)
  ∧ (records_registered w →
     filtered_dashboard (mines w) range w
     = Some {| df_filtered := data w;
               filtered_totals := quantity_sums (data w);
               chart_data := Summary (get_reports w);
               monthly_summary := Monthly (get_reports w) |}).
Proof.
  intros Hrange.
  assert (apply_filters (mines w) range (data w)
          = filter (λ e, Mine e ∈ mines w) (data w)) as Hflt.
  { unfold apply_filters. apply filter_ext_elem_of. intros e He.
    pose proof (default_date_range_covers _ _ Hrange e He). tauto. }
  split; [done|]. intros Hreg.
  unfold filtered_dashboard. rewrite get_reports_eq. simpl.
  destruct (data w) as [|e0 rest] eqn:Hdata; [done|].
  rewrite Hflt, filter_all; [done|].
  unfold records_registered in Hreg. rewrite Hdata in Hreg. by apply Forall_forall.
Qed.

(** X15 on the session with one entry for "Mine1". *)
Lemma default_filters_show_registered_records_witness :
  apply_filters (mines logged) (mkdate 2024 3 5, mkdate 2024 3 5) (data logged)
  = filter (λ e, Mine e ∈ mines logged) (data logged).
Proof.
  apply (default_filters_show_registered_records logged
           (mkdate 2024 3 5, mkdate 2024 3 5) eq_refl).
Defined.

(** ** Current stock in magazine *)

(** X16: the table of current stock has one row for every explosive type
    that occurs in the stock list, in ascending order of the type name,
    holding the type's received quantity; for each of the three types
    that quantity is the figure the stock dashboard shows for the type. *)
Theorem stock_summary_rows (w : world) :
  (∀ (k : string) (q : Z),
     (k, q) ∈ stock_summary w
     ↔ k ∈ Explosive_Type <$> stock w ∧ q = received k (stock w))
  ∧ NoDup (stock_summary w).*1
  ∧ StronglySorted String.le (stock_summary w).*1
  ∧ (∀ (t : explosive) (q : Z),
       (label t, q) ∈ stock_summary w →
       totals_of t <$> stock_dashboard w = Some q).
Proof.
  assert (stock_summary w
          = (λ k, (k, received k (stock w)))
              <$> merge_sort String.le (remove_dups (Explosive_Type <$> stock w))) as Hrows.
  { unfold stock_summary. by destruct (stock w). }
  assert (∀ k q, (k, q) ∈ stock_summary w
                 ↔ k ∈ Explosive_Type <$> stock w ∧ q = received k (stock w)) as Hmem.
  { intros k q. rewrite Hrows, list_elem_of_fmap. split.
    - intros (k' & [= -> ->] & Hk). split; [|done].
      by rewrite merge_sort_Permutation, elem_of_remove_dups in Hk.
    - intros [Hk ->]. exists k. split; [done|].
      by rewrite merge_sort_Permutation, elem_of_remove_dups. }
  assert ((stock_summary w).*1
          = merge_sort String.le (remove_dups (Explosive_Type <$> stock w))) as Hkeys.
  { rewrite Hrows, <- list_fmap_compose.
    rewrite <- (list_fmap_id (merge_sort _ _)) at 2. by apply list_fmap_ext. }
  split; [done|]. rewrite Hkeys. split; [|split].
  - rewrite merge_sort_Permutation. apply NoDup_remove_dups.
  - apply StronglySorted_merge_sort; apply _.
  - intros t q [Hin ->]%Hmem. unfold stock_dashboard, received.
    destruct (stock w); [by apply elem_of_nil in Hin|]. by destruct t.
Qed.

(** ** The registry without duplicates *)

Lemma NoDup_list_insert_fresh (l : list string) (i : nat) (x : string) :
  NoDup l → x ∉ l → NoDup (<[i := x]> l).
Proof.
  intros Hnd. revert i. induction Hnd as [|y l Hy Hnd IH]; intros i Hx;
    [destruct i; constructor|].
  apply not_elem_of_cons in Hx as [Hxy Hx]. destruct i as [|i]; simpl.
  - by constructor.
  - constructor; [|by apply IH]. intros Hin.
    apply list_elem_of_lookup in Hin as [j Hj].
    destruct (decide (j = i)) as [->|Hne].
    + destruct (decide (i < length l)%nat).
      * rewrite list_lookup_insert_eq in Hj by done. congruence.
      * rewrite list_insert_ge in Hj by lia. apply Hy, list_elem_of_lookup. by exists i.
    + rewrite list_lookup_insert_ne in Hj by done.
      apply Hy, list_elem_of_lookup. by exists j.
Qed.

(** X17: the registry stays free of duplicates through any add-mine
    submission and through every rename whose new name is not yet in the
    registry (the only way to get a name twice is to rename onto a name
    that is already there). *)
Theorem registry_stays_duplicate_free (op : mine_op) (w : world) :
  NoDup (mines w) →
  match op with RenameMine _ new_name => new_name ∉ mines w | AddMine _ => True end →
  NoDup (mines (run_mine_op op w)).
Proof.
  intros Hnd Hop. destruct op as [new_mine|i new_name]; cbn [run_mine_op].
  - by apply add_mine_form_NoDup.
  - destruct (mines w !! i) as [mine|]; [|done].
    unfold rename_mine. destruct (_ && _); [|done]. simpl.
    by apply NoDup_list_insert_fresh.
Qed.

(** X17 for renaming "Mine1" to "Pit1" on the initial registry. *)
Lemma registry_stays_duplicate_free_witness :
  NoDup (mines (run_mine_op (RenameMine 0 "Pit1") initial)).
Proof.
  apply (registry_stays_duplicate_free (RenameMine 0 "Pit1") initial).
  - apply (bool_decide_unpack (NoDup (mines initial))). exact I.
  - intros Hin. simpl in Hin.
    repeat (apply elem_of_cons in Hin as [Hin|Hin]; [discriminate|]).
    by apply elem_of_nil in Hin.
Defined.

(** ** The forms and the balance *)

(** X18: what the two forms do to the balance computed from the lists
    they leave behind, which the cards show from the next pass on. With
    non-negative quantities, and as long as the quantity received and the
    quantity issued of a type are at most 2^53, the new record included:
    a submitted entry lowers the balance of the type by the entry's
    quantity of that type; a stock receipt raises the balance of its own
    type by its quantity when it is accepted (serial number given,
    quantity positive) and leaves the balance alone when it is refused or
    is of another type. *)
Theorem forms_move_the_balance (w : world) (t : explosive) :
  Forall (λ r, 0 ≤ Quantity r) (stock w) →
  Forall (λ e, 0 ≤ issued_column t e) (data w) →
  exact_received (label t) (stock w) ≤ 2 ^ 53 →
  exact_sum (issued_column t) (data w) ≤ 2 ^ 53 →
  (∀ e : IssuanceRecord,
     0 ≤ issued_column t e →
     exact_sum (issued_column t) (data w) + issued_column t e ≤ 2 ^ 53 →
     get_stock_balance (entry_form true e w).1 !! label t
     = (λ b, b - issued_column t e) <$> get_stock_balance w !! label t)
  ∧ (∀ r : StockRecord,
       (Explosive_Type r = label t →
        exact_received (label t) (stock w) + Quantity r ≤ 2 ^ 53) →
       get_stock_balance (add_stock_form true r w).1 !! label t
       = (λ b, b + (if bool_decide (Explosive_Type r = label t ∧ Serial_No r ≠ ""
                                    ∧ 0 < Quantity r)
                    then Quantity r else 0))
           <$> get_stock_balance w !! label t).
Proof.
  intros Hs Hd Hr Hi. rewrite (balance_lookup_exact w t Hs Hd Hr Hi). split.
  - intros e He0 He.
    destruct (entry_form_frame e w) as (Hdata & Hstock & _).
    rewrite (balance_lookup_exact (entry_form true e w).1 t).
    + rewrite Hdata, Hstock, exact_sum_app. simpl. f_equal. lia.
    + by rewrite Hstock.
    + rewrite Hdata. apply Forall_app. split; [done|]. by constructor.
    + by rewrite Hstock.
    + rewrite Hdata, exact_sum_app. simpl. lia.
  - intros r Hbound.
    destruct (decide (Serial_No r ≠ "" ∧ 0 < Quantity r)) as [[Hser Hq]|Hbad].
    + destruct (add_stock_form_frame true r w) as (Hdata & _ & _ & _ & _).
      assert (stock (add_stock_form true r w).1 = stock w ++ [r]) as Hstock.
      { rewrite add_stock_form_accepted by done. simpl.
        by destruct (to_csv_frame STOCK_FILE
                       (mkFrame stock_columns (stock_row <$> (stock w ++ [r])))
                       (with_stock (stock w ++ [r]) w)) as (_ & -> & _). }
      assert (exact_received (label t) (stock w ++ [r])
              = exact_received (label t) (stock w)
                + (if bool_decide (Explosive_Type r = label t ∧ Serial_No r ≠ ""
                                   ∧ 0 < Quantity r)
                   then Quantity r else 0)) as Hsum.
      { rewrite exact_received_app, exact_received_singleton.
        destruct (decide (Explosive_Type r = label t)) as [Ht|Ht].
        - by rewrite bool_decide_eq_true_2.
        - by rewrite bool_decide_eq_false_2 by (by intros [? _]). }
      rewrite (balance_lookup_exact (add_stock_form true r w).1 t).
      * rewrite Hdata, Hstock, Hsum. simpl. f_equal. lia.
      * rewrite Hstock. apply Forall_app. split; [done|]. constructor; [lia | constructor].
      * by rewrite Hdata.
      * rewrite Hstock, Hsum. case_bool_decide as Hc; [|lia].
        destruct Hc as [Ht _]. by apply Hbound.
      * by rewrite Hdata.
    + rewrite add_stock_form_rejected by done.
      rewrite bool_decide_eq_false_2 by (intros (_ & ? & ?); by apply Hbad).
      cbn [fst]. rewrite (balance_lookup_exact w t Hs Hd Hr Hi). simpl. f_equal. lia.
Qed.

(** X18 on the session with 2 detonators in stock and 5 issued, for an
    entry of 2 more detonators. *)
Lemma forms_move_the_balance_witness :
  get_stock_balance (entry_form true sample_entry over_issued).1 !! "Detonators"
  = Some (-5).
Proof.
  etrans.
  - apply (proj1 (forms_move_the_balance over_issued Detonator
                    ltac:(repeat constructor; done) ltac:(repeat constructor; done)
                    ltac:(by vm_compute) ltac:(by vm_compute)) sample_entry).
    + done.
    + by vm_compute.
  - vm_compute. reflexivity.
Defined.
